(** * common-utils: lazy sequence combinators, [reduce] and [pick]

    A shallow embedding of the utility functions of the repository, in
    its two revisions:

    - [CommonUtils]: the iterator-based revision (generators [take],
      [slice], [drop], [cat], [map], [reverse], ..., the consumers
      [toArray], [nth], [reduce], and [pick]);
    - [ArrayRevision]: the earlier, array-based revision of
      [common-utils.ts] ([limit], [slice], [nth], [dropRight]).

    Module [JS] holds the part of the JavaScript runtime the functions
    rely on: numbers, values, thrown errors, the iteration protocol,
    [Array.prototype.slice] and plain objects. *)

From Stdlib Require Import ZArith List String Lia Bool.
From stdpp Require Import base option gmap strings.
Import ListNotations.

Set Universe Polymorphism.
Set Default Proof Using "Type".

(* ================================================================= *)
(** ** The JavaScript runtime *)

Module JS.

(** A [number] is NaN or an integer.  Every counter of the source
    ([_count], [index], [i]) starts at an integer and moves by one, so
    the integers are the numbers the loops compare their arguments
    with; fractions, the infinities and magnitudes from 2^53 on (where
    [+ 1] is no longer exact) are outside this model. *)
Inductive number : Type :=
| NaN
| Int (z : Z).

(** [a === b] on numbers: NaN differs from everything, itself included. *)
Definition strict_eq (a b : number) : bool :=
  match a, b with
  | Int x, Int y => (x =? y)%Z
  | _, _ => false
  end.

(** [a <= b], [a < b], [a > b]: false as soon as one side is NaN. *)
Definition num_le (a b : number) : bool :=
  match a, b with
  | Int x, Int y => (x <=? y)%Z
  | _, _ => false
  end.

Definition num_lt (a b : number) : bool :=
  match a, b with
  | Int x, Int y => (x <? y)%Z
  | _, _ => false
  end.

Definition num_gt (a b : number) : bool := num_lt b a.

Definition num_add (a b : number) : number :=
  match a, b with
  | Int x, Int y => Int (x + y)
  | _, _ => NaN
  end.

Definition num_sub (a b : number) : number :=
  match a, b with
  | Int x, Int y => Int (x - y)
  | _, _ => NaN
  end.

(** The global [isNaN], on an argument that already is a number. *)
Definition isNaN (n : number) : bool :=
  match n with
  | NaN => true
  | Int _ => false
  end.

(** Runtime values, as far as [typeof] and [===] tell them apart.
    Objects and functions are references; two references are the same
    value when they are the same address. *)
Inductive value : Type :=
| VUndefined
| VNull
| VBoolean (b : bool)
| VNumber (n : number)
| VString (s : string)
| VObject (address : nat)
| VFunction (address : nat).

Definition typeof (v : value) : string :=
  match v with
  | VUndefined => "undefined"
  | VNull => "object"
  | VBoolean _ => "boolean"
  | VNumber _ => "number"
  | VString _ => "string"
  | VObject _ => "object"
  | VFunction _ => "function"
  end.

(** [a === b] on values: no coercion. *)
Definition strict_equals (a b : value) : bool :=
  match a, b with
  | VUndefined, VUndefined => true
  | VNull, VNull => true
  | VBoolean x, VBoolean y => Bool.eqb x y
  | VNumber x, VNumber y => strict_eq x y
  | VString x, VString y => String.eqb x y
  | VObject x, VObject y => Nat.eqb x y
  | VFunction x, VFunction y => Nat.eqb x y
  | _, _ => false
  end.

(** The number a value is once [typeof] has said ["number"]. *)
Definition as_number (v : value) : number :=
  match v with
  | VNumber n => n
  | _ => NaN
  end.

(** A parameter with a default value: [None] is the omitted argument. *)
Definition default {A : Type} (d : A) (arg : option A) : A :=
  match arg with
  | Some a => a
  | None => d
  end.

(** Thrown errors, by constructor and message. *)
Inductive error : Type :=
| Error (message : string)
| TypeError (message : string).

(** What a call does: it returns, it throws, or it is still running
    when the fuel (a bound on the loop iterations it may perform) is
    used up. *)
Inductive outcome (A : Type) : Type :=
| Returns (a : A)
| Throws (e : error)
| OutOfFuel.
Arguments Returns {A} a.
Arguments Throws {A} e.
Arguments OutOfFuel {A}.

Definition bind {A B : Type} (o : outcome A) (k : A -> outcome B) : outcome B :=
  match o with
  | Returns a => k a
  | Throws e => Throws e
  | OutOfFuel => OutOfFuel
  end.

(** *** The iteration protocol

    An iterator is a state and the code that runs from it.  One [step]
    runs the generator body through one turn of its loop: the body
    returns ([Done]), reaches a [yield] ([Yield]), or comes back to the
    head of the loop without having yielded ([Skip]).  A call of the
    iterator's [next()] is a run of steps up to the first [Yield] or
    [Done]. *)
Inductive Step (T S : Type) : Type :=
| Done
| Skip (s : S)
| Yield (e : T) (s : S).
Arguments Done {T S}.
Arguments Skip {T S} s.
Arguments Yield {T S} e s.

Record Iterator (T : Type) : Type := MkIterator {
  State : Type;
  current : State;
  step : State -> Step T State
}.
Arguments MkIterator {T State} current step.
Arguments State {T} _.
Arguments current {T} _.
Arguments step {T} _ _.

(** One step of an iterator, returning the iterator to go on with. *)
Definition resume {T : Type} (it : Iterator T) : Step T (Iterator T) :=
  match step it (current it) with
  | Done => Done
  | Skip s => Skip (MkIterator s (step it))
  | Yield e s => Yield e (MkIterator s (step it))
  end.

(** [iterator.next()]: [Some (value, rest)] for [{done: false, value}],
    [None] for [{done: true}]. *)
Fixpoint next {T : Type} (fuel : nat) (it : Iterator T)
  : outcome (option (T * Iterator T)) :=
  match fuel with
  | O => OutOfFuel
  | S fuel' =>
      match resume it with
      | Done => Returns None
      | Skip it' => next fuel' it'
      | Yield e it' => Returns (Some (e, it'))
      end
  end.

(** [Array.from(iterable)], and the spread [...iterable] of an iterable
    into an argument list: the iterator is run to its end. *)
Fixpoint Array_from {T : Type} (fuel : nat) (it : Iterator T) : outcome (list T) :=
  match fuel with
  | O => OutOfFuel
  | S fuel' =>
      match resume it with
      | Done => Returns []
      | Skip it' => Array_from fuel' it'
      | Yield e it' => bind (Array_from fuel' it') (fun arr => Returns (e :: arr))
      end
  end.

(** The iterator of an array. *)
Definition array_step {T : Type} (l : list T) : Step T (list T) :=
  match l with
  | [] => Done
  | e :: rest => Yield e rest
  end.

Definition of_array {T : Type} (l : list T) : Iterator T :=
  MkIterator l array_step.

(** The iterator of a string hands over its code points, as strings of
    one code point each.  A string is held here as its UTF-8 bytes, in
    which a code point is one leading byte followed by its continuation
    bytes, the bytes [10xxxxxx]; an ASCII character is one byte. *)
Definition continues (c : Ascii.ascii) : bool :=
  match c with
  | Ascii.Ascii _ _ _ _ _ _ b6 b7 => b7 && negb b6
  end.

Definition continued (rest : string) : bool :=
  match rest with
  | String c _ => continues c
  | EmptyString => false
  end.

Fixpoint characters (s : string) : list string :=
  match s with
  | EmptyString => []
  | String c rest =>
      match characters rest with
      | following :: others =>
          if continued rest
          then String c following :: others
          else String c EmptyString :: following :: others
      | [] => [String c EmptyString]
      end
  end.

Definition of_string (s : string) : Iterator string :=
  of_array (characters s).

(** *** Arrays *)

(** [arr[index]]: the element when [index] is an integer in range,
    [None] (undefined) otherwise. *)
Definition array_get {T : Type} (arr : list T) (index : number) : option T :=
  match index with
  | Int i => if (i <? 0)%Z then None else nth_error arr (Z.to_nat i)
  | NaN => None
  end.

(** ToIntegerOrInfinity, on the numbers of this model. *)
Definition to_integer (n : number) : Z :=
  match n with
  | NaN => 0%Z
  | Int z => z
  end.

(** A relative index of [Array.prototype.slice]: counted from the end
    when negative, clamped to [0 .. len]. *)
Definition relative_index (len : Z) (n : number) : Z :=
  let rel := to_integer n in
  if (rel <? 0)%Z then Z.max (len + rel) 0 else Z.min rel len.

(** [arr.slice(start, end)]. *)
Definition Array_slice {T : Type} (arr : list T) (start end_ : number) : list T :=
  let len := Z.of_nat (length arr) in
  let k := relative_index len start in
  let final := relative_index len end_ in
  firstn (Z.to_nat (Z.max (final - k) 0)) (skipn (Z.to_nat k) arr).

(** *** Objects

    An object is its own properties and its prototype.  The objects of
    this model are those made of data: every property is a writable,
    enumerable data property under a string key, and holds a primitive
    value or such an object again; this is what [JSON.parse] and
    object literals of data give.  The one accessor property is the
    one every such object meets: ["__proto__"] of [Object.prototype],
    whose setter replaces the prototype of the object it is called on.
    The order in which an object lists its properties is not recorded:
    two objects of the model are equal when they have the same
    properties with the same values and the same prototype. *)
Inductive data : Type :=
| DUndefined
| DNull
| DBoolean (b : bool)
| DNumber (n : number)
| DString (s : string)
| DObject (o : object)
with object : Type :=
| Obj (own : gmap string data) (proto : prototype)
with prototype : Type :=
| null
| Object_prototype
| Proto (parent : object).

Definition own (o : object) : gmap string data :=
  match o with Obj props _ => props end.

Definition proto (o : object) : prototype :=
  match o with Obj _ p => p end.

(** [Object.hasOwn(obj, key)]. *)
Definition Object_hasOwn (obj : object) (key : string) : bool :=
  bool_decide (is_Some (own obj !! key)).

(** The object literal [{}]. *)
Definition empty_object : object := Obj ∅ Object_prototype.

(** The object literal [{ [key]: v }]: a computed key defines an own
    property, whatever the key. *)
Definition singleton_object (key : string) (v : data) : object :=
  Obj {[ key := v ]} Object_prototype.

(** The search of [target[key] = v] along the prototypes of the target,
    for a key the target does not own: does it end at the setter of
    [Object.prototype]?  It ends before, at the first prototype that
    owns [key]; at [Object.prototype] the key ["__proto__"] is the
    setter, and every other key is a data property or is missing. *)
Fixpoint reaches_setter (p : prototype) (key : string) : bool :=
  match p with
  | null => false
  | Object_prototype => String.eqb key "__proto__"
  | Proto (Obj props p') =>
      match props !! key with
      | Some _ => false
      | None => reaches_setter p' key
      end
  end.

(** [target[key] = v], the assignment [Object.assign] makes for each
    property.  A key the target owns gets the value.  Otherwise, when
    the search ends at the setter of [Object.prototype], the setter is
    called: an object or null becomes the prototype of the target,
    any other value is dropped, and in neither case does the target
    get a property.  In every other case the target gets [key] as a
    new own property. *)
Definition set_property (target : object) (key : string) (v : data) : object :=
  match own target !! key with
  | Some _ => Obj (<[key := v]> (own target)) (proto target)
  | None =>
      if reaches_setter (proto target) key then
        match v with
        | DObject o => Obj (own target) (Proto o)
        | DNull => Obj (own target) null
        | _ => target
        end
      else Obj (<[key := v]> (own target)) (proto target)
  end.

(** [Object.assign(target, source)]: every own property of [source] is
    assigned to [target], one after the other, and the target is
    returned.  [pick] hands over a source of one property. *)
Definition Object_assign (target source : object) : object :=
  map_fold (fun key v acc => set_property acc key v) target (own source).

(** [keys.reduce(callback, initial)] of [Array.prototype.reduce]. *)
Definition Array_reduce {A B : Type} (callback : B -> A -> B) (initial : B)
  (arr : list A) : B :=
  fold_left callback arr initial.

(** The boolean a value is once [typeof] has said ["boolean"], and the
    string it is once [typeof] has said ["string"]. *)
Definition as_boolean (v : value) : bool :=
  match v with
  | VBoolean b => b
  | _ => false
  end.

Definition as_string (v : value) : string :=
  match v with
  | VString s => s
  | _ => EmptyString
  end.

(** [arr.map(callback)], for a callback that itself makes calls: the
    elements are mapped from left to right, and the first call that
    does not return ends the whole. *)
Fixpoint Array_map {A B : Type} (callback : A -> outcome B) (arr : list A)
  : outcome (list B) :=
  match arr with
  | [] => Returns []
  | e :: rest =>
      bind (callback e) (fun e' =>
        bind (Array_map callback rest) (fun rest' => Returns (e' :: rest')))
  end.

(** [head.concat(...items)], every item being an array. *)
Definition Array_concat {T : Type} (head : list T) (items : list (list T)) : list T :=
  head ++ List.concat items.

End JS.

(* ================================================================= *)
(** ** The iterator-based revision *)

Module CommonUtils.
Import JS.

(** [isNumber]: [typeof value === "number" && !isNaN(value)]. *)
Definition isNumber (v : value) : bool :=
  String.eqb (typeof v) "number" && negb (isNaN (as_number v)).

(** [function* infinity(start = 0) { while (true) yield start++; }]
    The sum [start + 1] is that of the integers, which [start++] is as
    long as it stays between -2^53 and 2^53; what is stated of the
    values [infinity] yields is stated within that range
    ([Sequences.in_exact_range]). *)
Definition infinity_step (start : number) : Step number number :=
  Yield start (num_add start (Int 1)).

Definition infinity (start : option number) : Iterator number :=
  MkIterator (default (Int 0) start) infinity_step.

(** [take]: the loop state is the counter [_count] and the iterator of
    [iter]. *)
Definition take_step {T S : Type} (count : number) (iter : S -> Step T S)
  (st : number * S) : Step T (number * S) :=
  let '(_count, s) := st in
  match iter s with
  | Done => Done
  | Skip s' => Skip (_count, s')
  | Yield e s' =>
      if strict_eq _count count then Done
      else Yield e (num_add _count (Int 1), s')
  end.

Definition take_from {T : Type} (count _count : number) (iter : Iterator T)
  : Iterator T :=
  MkIterator (_count, current iter) (take_step count (step iter)).

Definition take {T : Type} (count : number) (iter : Iterator T) : Iterator T :=
  take_from count (Int 0) iter.

(** [slice]: the loop state is [index] and the iterator of [iter]. *)
Definition slice_step {T S : Type} (start end_ : number) (iter : S -> Step T S)
  (st : number * S) : Step T (number * S) :=
  let '(index, s) := st in
  match iter s with
  | Done => Done
  | Skip s' => Skip (index, s')
  | Yield e s' =>
      if num_le start index && num_le index end_
      then Yield e (num_add index (Int 1), s')
      else Skip (num_add index (Int 1), s')
  end.

Definition slice_from {T : Type} (start end_ index : number) (iter : Iterator T)
  : Iterator T :=
  MkIterator (index, current iter) (slice_step start end_ (step iter)).

Definition slice {T : Type} (start end_ : number) (iter : Iterator T) : Iterator T :=
  slice_from start end_ (Int 0) iter.

(** [toArray]. *)
Definition toArray {T : Type} (fuel : nat) (iter : Iterator T) : outcome (list T) :=
  Array_from fuel iter.

(** [nth]: the loop over [iterable], with its counter [i]. *)
Fixpoint nth_loop {T : Type} (fuel : nat) (index : value) (i : number)
  (iterable : Iterator T) : outcome (option T) :=
  match fuel with
  | O => OutOfFuel
  | S fuel' =>
      match resume iterable with
      | Done => Returns None
      | Skip rest => nth_loop fuel' index i rest
      | Yield e rest =>
          if strict_equals (VNumber i) index then Returns (Some e)
          else nth_loop fuel' index (num_add i (Int 1)) rest
      end
  end.

(** [nth]: [Returns None] is the call that falls off the end of the
    function and so returns undefined. *)
Definition nth {T : Type} (fuel : nat) (index : value) (iterable : Iterator T)
  : outcome (option T) :=
  if negb (isNumber index) then Throws (Error "index must be number")
  else nth_loop fuel index (Int 0) iterable.

Definition first {T : Type} (fuel : nat) (iterable : Iterator T) : outcome (option T) :=
  nth fuel (VNumber (Int 0)) iterable.

(** [drop]: the loop state is the counter [_count], which starts at
    [count] and goes down, and the iterator of [iterable]. *)
Definition drop_step {T S : Type} (iterable : S -> Step T S)
  (st : number * S) : Step T (number * S) :=
  let '(_count, s) := st in
  match iterable s with
  | Done => Done
  | Skip s' => Skip (_count, s')
  | Yield e s' =>
      if num_le _count (Int 0)
      then Yield e (num_sub _count (Int 1), s')
      else Skip (num_sub _count (Int 1), s')
  end.

Definition drop_from {T : Type} (_count : number) (iterable : Iterator T)
  : Iterator T :=
  MkIterator (_count, current iterable) (drop_step (step iterable)).

Definition drop {T : Type} (count : option number) (iterable : Iterator T)
  : Iterator T :=
  drop_from (default (Int 1) count) iterable.

(** [reverse]: the generator first runs [toArray(iterable)], one element
    a step, then reverses the array and yields from it. *)
Inductive reverse_state (T S : Type) : Type :=
| Collecting (arr : list T) (s : S)
| Emitting (reversedArr : list T).
Arguments Collecting {T S} arr s.
Arguments Emitting {T S} reversedArr.

Definition reverse_step {T S : Type} (iterable : S -> Step T S)
  (st : reverse_state T S) : Step T (reverse_state T S) :=
  match st with
  | Collecting arr s =>
      match iterable s with
      | Done => Skip (Emitting (rev arr))
      | Skip s' => Skip (Collecting arr s')
      | Yield e s' => Skip (Collecting (arr ++ [e]) s')
      end
  | Emitting reversedArr =>
      match reversedArr with
      | [] => Done
      | e :: rest => Yield e (Emitting rest)
      end
  end.

Definition reverse_from {T : Type} (arr : list T) (iterable : Iterator T)
  : Iterator T :=
  MkIterator (Collecting arr (current iterable)) (reverse_step (step iterable)).

Definition reverse {T : Type} (iterable : Iterator T) : Iterator T :=
  reverse_from [] iterable.

(** The generator in its second phase, the loop over [reversedArr]. *)
Definition emitting {T : Type} (reversedArr : list T) (iterable : Iterator T)
  : Iterator T :=
  MkIterator (Emitting reversedArr) (reverse_step (step iterable)).

(** [dropRight]. *)
Definition dropRight {T : Type} (count : option number) (iterable : Iterator T)
  : Iterator T :=
  reverse (drop (Some (default (Int 1) count)) (reverse iterable)).

(** [cat]: the state is the iterables still to visit, the first of them
    being the one the inner loop is running. *)
Definition cat_step {T : Type} (iterables : list (Iterator T))
  : Step T (list (Iterator T)) :=
  match iterables with
  | [] => Done
  | e :: rest =>
      match resume e with
      | Done => Skip rest
      | Skip e' => Skip (e' :: rest)
      | Yield _e e' => Yield _e (e' :: rest)
      end
  end.

Definition cat {T : Type} (iterables : list (Iterator T)) : Iterator T :=
  MkIterator iterables cat_step.

(** [construct]. *)
Definition construct {T : Type} (head : T) (tails : Iterator T) : Iterator T :=
  cat [of_array [head]; tails].

(** [map]. *)
Definition map_step {T U S : Type} (mapper : T -> U) (iterable : S -> Step T S)
  (s : S) : Step U S :=
  match iterable s with
  | Done => Done
  | Skip s' => Skip s'
  | Yield e s' => Yield (mapper e) s'
  end.

Definition map {T U : Type} (mapper : T -> U) (iterable : Iterator T) : Iterator U :=
  MkIterator (current iterable) (map_step mapper (step iterable)).

(** [flatMap]: [cat(...map(mapper, iterable))]; the spread runs the
    mapped iterator to its end before [cat] is called. *)
Definition flatMap {T U : Type} (fuel : nat) (mapper : T -> Iterator U)
  (iterable : Iterator T) : outcome (Iterator U) :=
  bind (Array_from fuel (map mapper iterable)) (fun args => Returns (cat args)).

(** [interpose]; [T] stands for the union [T | S] of the source. *)
Definition interpose {T : Type} (fuel : nat) (inserter : T -> T)
  (iterable : Iterator T) : outcome (Iterator T) :=
  bind (flatMap fuel (fun e => construct e (of_array [inserter e])) iterable)
       (fun pairs => Returns (dropRight (Some (Int 1)) pairs)).

(** [filter]. *)
Definition filter_step {T S : Type} (filterFn : T -> bool) (iter : S -> Step T S)
  (s : S) : Step T S :=
  match iter s with
  | Done => Done
  | Skip s' => Skip s'
  | Yield item s' => if filterFn item then Yield item s' else Skip s'
  end.

Definition filter {T : Type} (filterFn : T -> bool) (iter : Iterator T) : Iterator T :=
  MkIterator (current iter) (filter_step filterFn (step iter)).

(** [pick]: [picking obj] is the callback handed to [keys.reduce].
    Under [Object.hasOwn(obj, key)] the read [obj[key]] is the value of
    that own property. *)
Definition picking (obj acc : object) (key : string) : object :=
  match own obj !! key with
  | Some v => Object_assign acc (singleton_object key v)
  | None => acc
  end.

Definition pick (keys : list string) (obj : object) : object :=
  Array_reduce (picking obj) empty_object keys.

(** [reduce] has two call shapes: [reduce(reducer, iterable)], where the
    accumulator has the type of the elements, and
    [reduce(reducer, initial, iterable)].  The first is the call in
    which [maybeIterable === undefined]. *)
Inductive reduce_arguments : Type -> Type -> Type :=
| without_initial {T : Type} (iterable : Iterator T) : reduce_arguments T T
| with_initial {T S : Type} (initial : S) (iterable : Iterator T)
  : reduce_arguments T S.

(** The [while (!result.done)] loop of the first branch. *)
Fixpoint reduce_while {T S : Type} (fuel : nat) (reducer : S -> T -> number -> S)
  (accumulator : S) (index : number) (result : option (T * Iterator T))
  : outcome S :=
  match fuel with
  | O => OutOfFuel
  | S fuel' =>
      match result with
      | None => Returns accumulator
      | Some (value, iterator) =>
          let index := num_add index (Int 1) in
          let accumulator := reducer accumulator value index in
          bind (next fuel' iterator) (reduce_while fuel' reducer accumulator index)
      end
  end.

(** The [for (const item of iterable)] loop of the second branch. *)
Fixpoint reduce_for {T S : Type} (fuel : nat) (reducer : S -> T -> number -> S)
  (accumulator : S) (index : number) (iterable : Iterator T) : outcome S :=
  match fuel with
  | O => OutOfFuel
  | S fuel' =>
      match resume iterable with
      | Done => Returns accumulator
      | Skip rest => reduce_for fuel' reducer accumulator index rest
      | Yield item rest =>
          reduce_for fuel' reducer (reducer accumulator item index)
            (num_add index (Int 1)) rest
      end
  end.

Definition reduce {T S : Type} (fuel : nat) (reducer : S -> T -> number -> S)
  (args : reduce_arguments T S) : outcome S :=
  match args in reduce_arguments T0 S0
        return (S0 -> T0 -> number -> S0) -> outcome S0 with
  | without_initial iterable => fun reducer =>
      bind (next fuel iterable) (fun first =>
        match first with
        | None =>
            Throws (TypeError
              "You are trying to reduce of empty iterable with no initial value.")
        | Some (value, iterator) =>
            bind (next fuel iterator) (reduce_while fuel reducer value (Int 0))
        end)
  | with_initial initial iterable => fun reducer =>
      reduce_for fuel reducer initial (Int 0) iterable
  end reducer.

(** The sequence a call of [reduce] is given, and whether the call
    gives an initial value. *)
Definition iterable_of {T S : Type} (args : reduce_arguments T S) : Iterator T :=
  match args with
  | without_initial iterable => iterable
  | with_initial _ iterable => iterable
  end.

Definition has_initial {T S : Type} (args : reduce_arguments T S) : bool :=
  match args with
  | without_initial _ => false
  | with_initial _ _ => true
  end.

(** [negate], [identity]. *)
Definition negate (b : bool) : bool := negb b.

Definition identity {T : Type} (value : T) : T := value.

(** [isExist]: [value !== null && value !== undefined]. *)
Definition isExist (v : value) : bool :=
  negb (strict_equals v VNull) && negb (strict_equals v VUndefined).

(** [isTruthy]:
    [isExist(value) && (typeof value === "boolean" ? value : true)]. *)
Definition isTruthy (v : value) : bool :=
  isExist v && (if String.eqb (typeof v) "boolean" then as_boolean v else true).

Definition isFalsy (v : value) : bool := negate (isTruthy v).

(** [isEmptyStr], [isNonEmptyStr]. *)
Definition isEmptyStr (str : value) : bool :=
  String.eqb (typeof str) "string" && Nat.eqb (String.length (as_string str)) 0.

Definition isNonEmptyStr (str : value) : bool :=
  String.eqb (typeof str) "string" && Nat.ltb 0 (String.length (as_string str)).

(** [isFunction]. *)
Definition isFunction (func : value) : bool :=
  String.eqb (typeof func) "function".

(** [getValue]. *)
Definition getValue (v defaultValue : value) : value :=
  if isExist v then v else defaultValue.

(** [converter]: the comparator it returns, applied to [x] and [y]. *)
Definition converter {T : Type} (predicate : T -> T -> bool) (x y : T) : number :=
  if isTruthy (VBoolean (predicate x y)) then Int (-1)
  else if isTruthy (VBoolean (predicate y x)) then Int 1
  else Int 0.

End CommonUtils.

(* ================================================================= *)
(** ** The array-based revision *)

Module ArrayRevision.
Import JS.

Definition isNumber (v : value) : bool :=
  String.eqb (typeof v) "number" && negb (isNaN (as_number v)).

(** [limit], the earlier name of [take]. *)
Definition limit_step {T S : Type} (limit : number) (iter : S -> Step T S)
  (st : number * S) : Step T (number * S) :=
  let '(count, s) := st in
  match iter s with
  | Done => Done
  | Skip s' => Skip (count, s')
  | Yield e s' =>
      if strict_eq count limit then Done
      else Yield e (num_add count (Int 1), s')
  end.

Definition limit {T : Type} (limit : number) (iter : Iterator T) : Iterator T :=
  MkIterator (Int 0, current iter) (limit_step limit (step iter)).

(** [slice]. *)
Definition slice_step {T S : Type} (start end_ : number) (iter : S -> Step T S)
  (st : number * S) : Step T (number * S) :=
  let '(index, s) := st in
  match iter s with
  | Done => Done
  | Skip s' => Skip (index, s')
  | Yield e s' =>
      if num_le start index && num_le index end_
      then Yield e (num_add index (Int 1), s')
      else Skip (num_add index (Int 1), s')
  end.

Definition slice {T : Type} (start end_ : number) (iter : Iterator T) : Iterator T :=
  MkIterator (Int 0, current iter) (slice_step start end_ (step iter)).

(** [nth], on an array; [Array.isArray(list)] holds by the type of
    [list]. *)
Definition nth {T : Type} (index : value) (list : list T) : outcome (option T) :=
  if negb (isNumber index) then Throws (Error "index must be number")
  else if num_lt (as_number index) (Int 0)
          || num_gt (as_number index)
                    (num_sub (Int (Z.of_nat (List.length list))) (Int 1))
  then Throws (Error "index is out of bound")
  else Returns (array_get list (as_number index)).

Definition first {T : Type} (list : list T) : outcome (option T) :=
  nth (VNumber (Int 0)) list.

(** [dropRight]. *)
Definition dropRight {T : Type} (fuel : nat) (length : option number)
  (iterable : Iterator T) : outcome (list T) :=
  bind (Array_from fuel iterable) (fun arr =>
    let maxLength := Int (Z.of_nat (List.length arr)) in
    Returns (Array_slice arr (Int 0) (num_sub maxLength (default (Int 1) length)))).

(** [drop]. *)
Definition drop {T : Type} (fuel : nat) (length : option number)
  (iterable : Iterator T) : outcome (list T) :=
  bind (Array_from fuel iterable) (fun arr =>
    let maxLength := Int (Z.of_nat (List.length arr)) in
    Returns (Array_slice arr (default (Int 1) length) maxLength)).

(** [cat]: [head] is an array or undefined; [isExist(head)] is the case
    in which it is an array. *)
Definition cat {T : Type} (fuel : nat) (lists : list (list T)) : outcome (list T) :=
  bind (first lists) (fun head =>
    match head with
    | Some head =>
        bind (drop fuel (Some (Int 1)) (of_array lists)) (fun rest =>
          Returns (Array_concat head rest))
    | None => Returns []
    end).

(** [construct]. *)
Definition construct {T : Type} (fuel : nat) (head : T) (tails : list T)
  : outcome (list T) :=
  bind (Array_from fuel (of_array tails)) (fun tails' =>
    cat fuel [[head]; tails']).

(** [mapCat]; the callback [f] may make calls of its own. *)
Definition mapCat {T : Type} (fuel : nat) (f : T -> outcome (list T))
  (iterable : Iterator T) : outcome (list T) :=
  bind (Array_from fuel iterable) (fun arr =>
    bind (Array_map f arr) (fun lists => cat fuel lists)).

(** [interpose]. *)
Definition interpose {T : Type} (fuel : nat) (inserter : T -> T)
  (collection : Iterator T) : outcome (list T) :=
  bind (mapCat fuel (fun e => construct fuel e [inserter e]) collection)
       (fun pairs => dropRight fuel (Some (Int 1)) (of_array pairs)).

End ArrayRevision.

(* ================================================================= *)
(** ** What a sequence produces *)

Module Sequences.
Import JS.

(** [produces it l]: run to its end, the iterator yields the elements
    of [l], in this order, and then is done: the sequence is finite. *)
Inductive produces {T : Type} : Iterator T -> list T -> Prop :=
| produces_done it :
    resume it = Done -> produces it []
| produces_skip it it' l :
    resume it = Skip it' -> produces it' l -> produces it l
| produces_yield it e it' l :
    resume it = Yield e it' -> produces it' l -> produces it (e :: l).

(** [emits it l it']: the iterator can be run up to [it'], and yields
    the elements of [l] on the way; nothing is said of what follows, so
    the sequence may be infinite. *)
Inductive emits {T : Type} : Iterator T -> list T -> Iterator T -> Prop :=
| emits_nothing it :
    emits it [] it
| emits_skip it it' l it'' :
    resume it = Skip it' -> emits it' l it'' -> emits it l it''
| emits_yield it e it' l it'' :
    resume it = Yield e it' -> emits it' l it'' -> emits it (e :: l) it''.

(** [eventually run r]: the call [run] gives [r] whenever it is given
    enough fuel. *)
Definition eventually {A : Type} (run : nat -> outcome A) (r : outcome A) : Prop :=
  exists enough : nat, forall fuel : nat, enough <= fuel -> run fuel = r.

(** [diverges run]: the call never comes back, whatever the fuel. *)
Definition diverges {A : Type} (run : nat -> outcome A) : Prop :=
  forall fuel : nat, run fuel = OutOfFuel.

(** The elements of [l] from position [i] on whose position satisfies
    [keep]. *)
Fixpoint select_from {T : Type} (keep : Z -> bool) (i : Z) (l : list T) : list T :=
  match l with
  | [] => []
  | e :: rest =>
      if keep i then e :: select_from keep (i + 1) rest
      else select_from keep (i + 1) rest
  end.

(** [start <= i <= end], for a position [i] of a sequence. *)
Definition between (start end_ : number) (i : Z) : bool :=
  match start, end_ with
  | Int a, Int b => (a <=? i)%Z && (i <=? b)%Z
  | _, _ => false
  end.

(** A left fold that hands its function the position of each element,
    counted from [i]. *)
Fixpoint fold_from {T S : Type} (f : S -> T -> number -> S) (acc : S) (i : Z)
  (l : list T) : S :=
  match l with
  | [] => acc
  | e :: rest => fold_from f (f acc e (Int i)) (i + 1) rest
  end.

(** The elements of [l] with [f] of the preceding element between each
    two neighbours. *)
Fixpoint interposed {T : Type} (f : T -> T) (l : list T) : list T :=
  match l with
  | [] => []
  | e :: rest =>
      match rest with
      | [] => [e]
      | _ :: _ => e :: f e :: interposed f rest
      end
  end.

(** What [iterator.next()] answers on a sequence that produces [l]. *)
Definition answers {T : Type} (result : option (T * Iterator T)) (l : list T) : Prop :=
  match result with
  | None => l = []
  | Some (value, iterator) => exists rest, l = value :: rest /\ produces iterator rest
  end.

(** The [n] integers from [z] on. *)
Fixpoint count_up (z : Z) (n : nat) : list number :=
  match n with
  | O => []
  | S n' => Int z :: count_up (z + 1) n'
  end.

(** The integers among which [+ 1] is exact: a counter that starts in
    this range and goes up by one is an integer counter for as long as
    it stays in it. *)
Definition in_exact_range (z : Z) : Prop := (- 2 ^ 53 <= z <= 2 ^ 53)%Z.

(** [passed count k]: a counter that stands at [k] and goes up will
    never be [=== count]; so it is when [count] is NaN, too. *)
Definition passed (count : number) (k : Z) : Prop :=
  match count with
  | NaN => True
  | Int n => (n < k)%Z
  end.

(** [endless it]: the iterator never comes to its end. *)
Definition endless {T : Type} (it : Iterator T) : Prop :=
  forall l, ~ produces it l.

End Sequences.

(* ================================================================= *)
(** ** Running iterators *)

Module Running.
Import JS Sequences.

Create HintDb sequences.
#[export] Hint Constructors produces emits : sequences.

(** A call that is over after one turn of its loop: one unit of fuel is
    enough, and [H] tells what the step of the iterator is. *)
Ltac in_one_step H :=
  exists 1%nat; intros [|?fuel] ?; [lia|]; simpl; rewrite ?H.

Lemma eventually_now {A : Type} (r : outcome A) :
  eventually (fun _ => r) r.
Proof. exists 0. reflexivity. Qed.

Lemma eventually_later {A : Type} (run : nat -> outcome A) r :
  eventually run r -> eventually (fun fuel => run (Nat.pred fuel)) r.
Proof.
  intros [n Hn]. exists (S n). intros fuel Hle.
  apply Hn. lia.
Qed.

Lemma eventually_step {A : Type} (run : nat -> outcome A) (body : nat -> outcome A) r :
  (forall fuel, run (S fuel) = body fuel) ->
  eventually body r -> eventually run r.
Proof.
  intros Hrun [n Hn]. exists (S n). intros fuel Hle.
  destruct fuel as [|fuel]; [lia|].
  rewrite Hrun. apply Hn. lia.
Qed.

Lemma eventually_bind {A B : Type} (run : nat -> outcome A) (k : nat -> A -> outcome B) a r :
  eventually run (Returns a) ->
  eventually (fun fuel => k fuel a) r ->
  eventually (fun fuel => bind (run fuel) (k fuel)) r.
Proof.
  intros [n Hn] [m Hm]. exists (Nat.max n m). intros fuel Hle.
  rewrite Hn by lia. simpl. apply Hm. lia.
Qed.

Lemma eventually_unique {A : Type} (run : nat -> outcome A) r r' :
  eventually run r -> eventually run r' -> r = r'.
Proof.
  intros [n Hn] [m Hm].
  rewrite <- (Hn (Nat.max n m)) by lia.
  apply Hm. lia.
Qed.

Lemma eventually_not_diverges {A : Type} (run : nat -> outcome A) r :
  r <> OutOfFuel -> eventually run r -> ~ diverges run.
Proof.
  intros Hr [n Hn] Hd. apply Hr. rewrite <- (Hn n) by lia. apply Hd.
Qed.

(** *** [Array.from] and [produces] *)

Lemma Array_from_produces {T : Type} fuel (it : Iterator T) l :
  Array_from fuel it = Returns l -> produces it l.
Proof.
  revert it l. induction fuel as [|fuel IH]; intros it l H; simpl in H.
  - discriminate.
  - destruct (resume it) as [|it'|e it'] eqn:Hstep.
    + injection H as <-. auto with sequences.
    + eauto with sequences.
    + destruct (Array_from fuel it') as [arr| |] eqn:Hrest; simpl in H; try discriminate.
      injection H as <-. eauto with sequences.
Qed.

Lemma produces_Array_from {T : Type} (it : Iterator T) l :
  produces it l -> eventually (fun fuel => Array_from fuel it) (Returns l).
Proof.
  induction 1 as [it Hd|it it' l Hs _ IH|it e it' l Hy _ IH].
  - in_one_step Hd. reflexivity.
  - apply eventually_step with (body := fun fuel => Array_from fuel it'); auto.
    intros fuel. simpl. now rewrite Hs.
  - apply eventually_step
      with (body := fun fuel => bind (Array_from fuel it') (fun arr => Returns (e :: arr))).
    + intros fuel. simpl. now rewrite Hy.
    + apply eventually_bind with (a := l); auto. apply eventually_now.
Qed.

Lemma Array_from_not_throws {T : Type} fuel (it : Iterator T) e :
  Array_from fuel it <> Throws e.
Proof.
  revert it. induction fuel as [|fuel IH]; intros it; simpl; [discriminate|].
  destruct (resume it) as [|it'|x it']; [discriminate|apply IH|].
  specialize (IH it'). destruct (Array_from fuel it'); simpl; congruence.
Qed.

Lemma produces_unique {T : Type} (it : Iterator T) l l' :
  produces it l -> produces it l' -> l = l'.
Proof.
  intros H. revert l'.
  induction H as [it Hd|it it' l Hs _ IH|it e it' l Hy _ IH]; intros l' H';
    inversion H'; subst; try congruence.
  - apply IH. congruence.
  - f_equal; [congruence|]. apply IH. congruence.
Qed.

Lemma produces_of_array {T : Type} (l : list T) :
  produces (of_array l) l.
Proof.
  induction l as [|e l IH].
  - now apply produces_done.
  - eapply produces_yield; [reflexivity|]. exact IH.
Qed.

Lemma produces_emits {T : Type} (it : Iterator T) l :
  produces it l -> exists it', emits it l it' /\ resume it' = Done.
Proof.
  induction 1 as [it Hd|it it' l Hs _ [it'' [IH1 IH2]]|it e it' l Hy _ [it'' [IH1 IH2]]].
  all: eauto with sequences.
Qed.

Lemma emits_produces {T : Type} (it : Iterator T) l it' l' :
  emits it l it' -> produces it' l' -> produces it (l ++ l').
Proof.
  induction 1 as [it|it it1 l it2 Hs _ IH|it e it1 l it2 Hy _ IH]; intros Hp; simpl.
  all: eauto with sequences.
Qed.

#[export] Hint Resolve produces_of_array : sequences.

End Running.

(* ================================================================= *)
(** ** The generators, one step at a time *)

Module Generators.
Import JS Sequences Running CommonUtils.

Local Open Scope Z_scope.

Lemma resume_take_from {T : Type} count _count (iter : Iterator T) :
  resume (take_from count _count iter) =
  match resume iter with
  | Done => Done
  | Skip rest => Skip (take_from count _count rest)
  | Yield e rest =>
      if strict_eq _count count then Done
      else Yield e (take_from count (num_add _count (Int 1)) rest)
  end.
Proof.
  unfold resume, take_from; simpl.
  destruct (step iter (current iter)); try reflexivity.
  destruct (strict_eq _count count); reflexivity.
Qed.

Lemma resume_slice_from {T : Type} start end_ index (iter : Iterator T) :
  resume (slice_from start end_ index iter) =
  match resume iter with
  | Done => Done
  | Skip rest => Skip (slice_from start end_ index rest)
  | Yield e rest =>
      if num_le start index && num_le index end_
      then Yield e (slice_from start end_ (num_add index (Int 1)) rest)
      else Skip (slice_from start end_ (num_add index (Int 1)) rest)
  end.
Proof.
  unfold resume, slice_from; simpl.
  destruct (step iter (current iter)); try reflexivity.
  destruct (num_le start index && num_le index end_); reflexivity.
Qed.

Lemma resume_drop_from {T : Type} _count (iterable : Iterator T) :
  resume (drop_from _count iterable) =
  match resume iterable with
  | Done => Done
  | Skip rest => Skip (drop_from _count rest)
  | Yield e rest =>
      if num_le _count (Int 0)
      then Yield e (drop_from (num_sub _count (Int 1)) rest)
      else Skip (drop_from (num_sub _count (Int 1)) rest)
  end.
Proof.
  unfold resume, drop_from; simpl.
  destruct (step iterable (current iterable)); try reflexivity.
  destruct (num_le _count (Int 0)); reflexivity.
Qed.

Lemma resume_reverse_from {T : Type} arr (iterable : Iterator T) :
  resume (reverse_from arr iterable) =
  match resume iterable with
  | Done => Skip (emitting (rev arr) iterable)
  | Skip rest => Skip (reverse_from arr rest)
  | Yield e rest => Skip (reverse_from (arr ++ [e]) rest)
  end.
Proof.
  unfold resume, reverse_from, emitting; simpl.
  destruct (step iterable (current iterable)); reflexivity.
Qed.

Lemma resume_map {T U : Type} (mapper : T -> U) (iterable : Iterator T) :
  resume (map mapper iterable) =
  match resume iterable with
  | Done => Done
  | Skip rest => Skip (map mapper rest)
  | Yield e rest => Yield (mapper e) (map mapper rest)
  end.
Proof.
  unfold resume, map, map_step; simpl.
  destruct (step iterable (current iterable)); reflexivity.
Qed.

Lemma resume_cat {T : Type} (e : Iterator T) rest :
  resume (cat (e :: rest)) =
  match resume e with
  | Done => Skip (cat rest)
  | Skip e' => Skip (cat (e' :: rest))
  | Yield _e e' => Yield _e (cat (e' :: rest))
  end.
Proof.
  unfold resume at 1, cat; simpl.
  destruct (resume e); reflexivity.
Qed.

(** *** [take] *)

Lemma take_from_produces {T : Type} (n k : Z) (iter : Iterator T) l :
  0 <= k <= n ->
  produces iter l ->
  produces (take_from (Int n) (Int k) iter) (firstn (Z.to_nat (n - k)) l).
Proof.
  intros Hk H. revert k Hk.
  induction H as [it Hd|it it' l Hs _ IH|it e it' l Hy _ IH]; intros k Hk.
  - rewrite firstn_nil. apply produces_done.
    now rewrite resume_take_from, Hd.
  - eapply produces_skip; [|apply IH; exact Hk].
    now rewrite resume_take_from, Hs.
  - destruct (Z.eq_dec k n) as [->|Hne].
    + rewrite Z.sub_diag. simpl. apply produces_done.
      rewrite resume_take_from, Hy. simpl. now rewrite Z.eqb_refl.
    + replace (Z.to_nat (n - k)) with (S (Z.to_nat (n - (k + 1)))) by lia.
      simpl. eapply produces_yield; [|apply IH; lia].
      rewrite resume_take_from, Hy. simpl.
      destruct (Z.eqb_spec k n); [contradiction|reflexivity].
Qed.

Lemma take_from_emits {T : Type} (n k : Z) (iter : Iterator T) l rest :
  0 <= k <= n ->
  emits iter l rest ->
  (Z.to_nat (n - k) < length l)%nat ->
  produces (take_from (Int n) (Int k) iter) (firstn (Z.to_nat (n - k)) l).
Proof.
  intros Hk H. revert k Hk.
  induction H as [it|it it' l it'' Hs _ IH|it e it' l it'' Hy _ IH];
    intros k Hk Hlen.
  - simpl in Hlen. lia.
  - eapply produces_skip; [|apply IH; assumption].
    now rewrite resume_take_from, Hs.
  - destruct (Z.eq_dec k n) as [->|Hne].
    + rewrite Z.sub_diag. simpl. apply produces_done.
      rewrite resume_take_from, Hy. simpl. now rewrite Z.eqb_refl.
    + replace (Z.to_nat (n - k)) with (S (Z.to_nat (n - (k + 1)))) in * by lia.
      simpl in *. eapply produces_yield; [|apply IH; lia].
      rewrite resume_take_from, Hy. simpl.
      destruct (Z.eqb_spec k n); [contradiction|reflexivity].
Qed.

Lemma take_from_passed {T : Type} count (k : Z) (iter : Iterator T) l :
  passed count k ->
  produces iter l ->
  produces (take_from count (Int k) iter) l.
Proof.
  intros Hk H. revert k Hk.
  induction H as [it Hd|it it' l Hs _ IH|it e it' l Hy _ IH]; intros k Hk.
  - apply produces_done. now rewrite resume_take_from, Hd.
  - eapply produces_skip; [|apply IH; exact Hk].
    now rewrite resume_take_from, Hs.
  - eapply produces_yield.
    + rewrite resume_take_from, Hy.
      destruct count as [|n]; simpl; [reflexivity|].
      simpl in Hk. destruct (Z.eqb_spec k n); [lia|reflexivity].
    + apply IH. destruct count; simpl in *; [exact I|lia].
Qed.

(** *** [slice] *)

Lemma in_range_between start end_ (i : Z) :
  num_le start (Int i) && num_le (Int i) end_ = between start end_ i.
Proof.
  destruct start, end_; simpl; try reflexivity.
  now rewrite andb_false_r.
Qed.

Lemma slice_from_produces {T : Type} start end_ (k : Z) (iter : Iterator T) l :
  produces iter l ->
  produces (slice_from start end_ (Int k) iter)
           (select_from (between start end_) k l).
Proof.
  intros H. revert k.
  induction H as [it Hd|it it' l Hs _ IH|it e it' l Hy _ IH]; intros k; simpl.
  - apply produces_done. now rewrite resume_slice_from, Hd.
  - eapply produces_skip; [|apply IH].
    now rewrite resume_slice_from, Hs.
  - destruct (between start end_ k) eqn:Hb.
    + eapply produces_yield; [|apply IH].
      rewrite resume_slice_from, Hy, in_range_between, Hb. reflexivity.
    + eapply produces_skip; [|apply IH].
      rewrite resume_slice_from, Hy, in_range_between, Hb. reflexivity.
Qed.

(** A slice that comes to its end has come to the end of its source. *)
Lemma slice_from_finite {T : Type} start end_ index (iter : Iterator T) out :
  produces (slice_from start end_ index iter) out ->
  exists l, produces iter l.
Proof.
  intros H. remember (slice_from start end_ index iter) as sl eqn:Hsl.
  revert index iter Hsl.
  induction H as [it Hd|it it' l Hs _ IH|it e it' l Hy _ IH];
    intros index iter ->; rewrite resume_slice_from in *.
  - destruct (resume iter) as [|rest|x rest] eqn:Hr.
    + exists []. now apply produces_done.
    + discriminate.
    + destruct (num_le start index && num_le index end_); discriminate.
  - destruct (resume iter) as [|rest|x rest] eqn:Hr.
    + discriminate.
    + injection Hs as <-. destruct (IH _ _ eq_refl) as [l0 Hl0].
      exists l0. eapply produces_skip; eauto.
    + destruct (num_le start index && num_le index end_); [discriminate|].
      injection Hs as <-. destruct (IH _ _ eq_refl) as [l0 Hl0].
      exists (x :: l0). eapply produces_yield; eauto.
  - destruct (resume iter) as [|rest|x rest] eqn:Hr.
    + discriminate.
    + discriminate.
    + destruct (num_le start index && num_le index end_); [|discriminate].
      injection Hy as <- <-. destruct (IH _ _ eq_refl) as [l0 Hl0].
      exists (x :: l0). eapply produces_yield; eauto.
Qed.

(** [infinity] never comes to an end. *)
Lemma infinity_endless (start : number) l :
  ~ produces (MkIterator start infinity_step) l.
Proof.
  intros H. remember (MkIterator start infinity_step) as it eqn:Hit.
  revert start Hit.
  induction H as [it Hd|it it' l Hs _ IH|it e it' l Hy _ IH]; intros start ->.
  - discriminate.
  - discriminate.
  - unfold resume in Hy; simpl in Hy. injection Hy as _ <-.
    eapply IH. reflexivity.
Qed.

End Generators.

Module Finite.
Import JS Sequences Running CommonUtils Generators.

Local Open Scope Z_scope.

(** *** [drop] *)

Lemma drop_from_produces {T : Type} (c : Z) (iterable : Iterator T) l :
  produces iterable l ->
  produces (drop_from (Int c) iterable) (skipn (Z.to_nat c) l).
Proof.
  intros H. revert c.
  induction H as [it Hd|it it' l Hs _ IH|it e it' l Hy _ IH]; intros c.
  - rewrite skipn_nil. apply produces_done.
    now rewrite resume_drop_from, Hd.
  - eapply produces_skip; [|apply IH].
    now rewrite resume_drop_from, Hs.
  - destruct (Z.leb_spec c 0) as [Hle|Hgt].
    + replace (Z.to_nat c) with 0%nat by lia. simpl.
      eapply produces_yield.
      * rewrite resume_drop_from, Hy. simpl.
        destruct (Z.leb_spec c 0); [reflexivity|lia].
      * specialize (IH (c - 1)).
        replace (Z.to_nat (c - 1)) with 0%nat in IH by lia. exact IH.
    + replace (Z.to_nat c) with (S (Z.to_nat (c - 1))) by lia. simpl.
      eapply produces_skip; [|apply IH].
      rewrite resume_drop_from, Hy. simpl.
      destruct (Z.leb_spec c 0); [lia|reflexivity].
Qed.

(** *** [reverse] *)

Lemma emitting_produces {T : Type} (reversedArr : list T) (iterable : Iterator T) :
  produces (emitting reversedArr iterable) reversedArr.
Proof.
  induction reversedArr as [|e rest IH].
  - now apply produces_done.
  - eapply produces_yield; [reflexivity|exact IH].
Qed.

Lemma reverse_from_produces {T : Type} arr (iterable : Iterator T) l :
  produces iterable l ->
  produces (reverse_from arr iterable) (rev (arr ++ l)).
Proof.
  intros H. revert arr.
  induction H as [it Hd|it it' l Hs _ IH|it e it' l Hy _ IH]; intros arr.
  - rewrite app_nil_r. eapply produces_skip.
    + now rewrite resume_reverse_from, Hd.
    + apply emitting_produces.
  - eapply produces_skip; [|apply IH].
    now rewrite resume_reverse_from, Hs.
  - eapply produces_skip.
    + now rewrite resume_reverse_from, Hy.
    + specialize (IH (arr ++ [e])). now rewrite <- app_assoc in IH.
Qed.

Lemma reverse_produces {T : Type} (iterable : Iterator T) l :
  produces iterable l -> produces (reverse iterable) (rev l).
Proof. intros H. exact (reverse_from_produces [] iterable l H). Qed.

(** *** [dropRight] *)

Lemma dropRight_produces {T : Type} (n : Z) (iterable : Iterator T) l :
  produces iterable l ->
  produces (dropRight (Some (Int n)) iterable)
           (firstn (length l - Z.to_nat n) l).
Proof.
  intros H. unfold dropRight, drop. simpl.
  rewrite <- (rev_involutive (firstn _ l)), <- skipn_rev.
  apply reverse_produces, drop_from_produces, reverse_produces, H.
Qed.

(** *** [map], [cat], [construct] *)

Lemma map_produces {T U : Type} (mapper : T -> U) (iterable : Iterator T) l :
  produces iterable l -> produces (map mapper iterable) (List.map mapper l).
Proof.
  induction 1 as [it Hd|it it' l Hs _ IH|it e it' l Hy _ IH]; simpl.
  - apply produces_done. now rewrite resume_map, Hd.
  - eapply produces_skip; [|exact IH]. now rewrite resume_map, Hs.
  - eapply produces_yield; [|exact IH]. now rewrite resume_map, Hy.
Qed.

Lemma cat_cons_produces {T : Type} (e : Iterator T) rest l ls :
  produces e l -> produces (cat rest) ls -> produces (cat (e :: rest)) (l ++ ls).
Proof.
  intros H Hrest.
  induction H as [it Hd|it it' l Hs _ IH|it x it' l Hy _ IH]; simpl.
  - eapply produces_skip; [|exact Hrest]. now rewrite resume_cat, Hd.
  - eapply produces_skip; [|exact IH]. now rewrite resume_cat, Hs.
  - eapply produces_yield; [|exact IH]. now rewrite resume_cat, Hy.
Qed.

Lemma cat_produces {T : Type} (iterables : list (Iterator T)) ls :
  Forall2 produces iterables ls -> produces (cat iterables) (concat ls).
Proof.
  induction 1 as [|e l rest ls He _ IH]; simpl.
  - now apply produces_done.
  - now apply cat_cons_produces.
Qed.

Lemma construct_produces {T : Type} (head : T) (tails : Iterator T) l :
  produces tails l -> produces (construct head tails) (head :: l).
Proof.
  intros H. unfold construct.
  change (head :: l) with ([head] ++ l).
  apply cat_cons_produces; [apply produces_of_array|].
  rewrite <- (app_nil_r l).
  apply cat_cons_produces; [exact H|now apply produces_done].
Qed.

End Finite.

Module Interposing.
Import JS Sequences Running CommonUtils Generators Finite.

Lemma flatMap_eventually {T U : Type} (mapper : T -> Iterator U)
  (iterable : Iterator T) l :
  produces iterable l ->
  eventually (fun fuel => flatMap fuel mapper iterable)
             (Returns (cat (List.map mapper l))).
Proof.
  intros H. unfold flatMap.
  apply (eventually_bind (fun fuel => Array_from fuel (map mapper iterable))
           (fun _ args => Returns (cat args)) (List.map mapper l)).
  - apply produces_Array_from, map_produces, H.
  - apply eventually_now.
Qed.

Lemma pairs_produce {T : Type} (inserter : T -> T) (l : list T) :
  Forall2 produces
    (List.map (fun e => construct e (of_array [inserter e])) l)
    (List.map (fun e => [e; inserter e]) l).
Proof.
  induction l as [|e l IH]; simpl; constructor; [|exact IH].
  apply construct_produces, produces_of_array.
Qed.

Lemma all_but_last_pairs {T : Type} (inserter : T -> T) (l : list T) :
  let pairs := concat (List.map (fun e => [e; inserter e]) l) in
  firstn (length pairs - 1) pairs = interposed inserter l.
Proof.
  induction l as [|e rest IH]; [reflexivity|].
  destruct rest as [|x rest]; [reflexivity|].
  cbn zeta in IH |- *.
  remember (x :: rest) as tail eqn:Htail.
  change (concat (List.map (fun e => [e; inserter e]) (e :: tail)))
    with (e :: inserter e :: concat (List.map (fun e => [e; inserter e]) tail)).
  remember (concat (List.map (fun e => [e; inserter e]) tail)) as pairs eqn:Hpairs.
  assert (Hlen : exists m, length pairs = S m).
  { subst tail pairs. simpl. eauto. }
  destruct Hlen as [m Hm].
  simpl length. rewrite Hm in IH |- *.
  replace (S (S (S m)) - 1)%nat with (S (S m)) by lia.
  replace (S m - 1)%nat with m in IH by lia.
  rewrite !firstn_cons, IH. subst tail. reflexivity.
Qed.

Lemma interpose_eventually {T : Type} (inserter : T -> T) (iterable : Iterator T) l :
  produces iterable l ->
  exists result,
    eventually (fun fuel => interpose fuel inserter iterable) (Returns result)
    /\ produces result (interposed inserter l).
Proof.
  intros H.
  set (mapper := fun e => construct e (of_array [inserter e])).
  exists (dropRight (Some (Int 1)) (cat (List.map mapper l))). split.
  - unfold interpose.
    apply (eventually_bind (fun fuel => flatMap fuel mapper iterable)
             (fun _ pairs => Returns (dropRight (Some (Int 1)) pairs))
             (cat (List.map mapper l))).
    + apply flatMap_eventually, H.
    + apply eventually_now.
  - rewrite <- all_but_last_pairs.
    apply (dropRight_produces 1), cat_produces, pairs_produce.
Qed.

End Interposing.

Module Folding.
Import JS Sequences Running CommonUtils.

Local Open Scope Z_scope.

Lemma next_eventually {T : Type} (it : Iterator T) l :
  produces it l ->
  exists result, eventually (fun fuel => next fuel it) (Returns result)
                 /\ answers result l.
Proof.
  induction 1 as [it Hd|it it' l Hs _ [r [IH1 IH2]]|it e it' l Hy Hl _].
  - exists None. split; [|reflexivity].
    in_one_step Hd. reflexivity.
  - exists r. split; [|exact IH2].
    apply eventually_step with (body := fun fuel => next fuel it'); auto.
    intros fuel. simpl. now rewrite Hs.
  - exists (Some (e, it')). split; [|exists l; auto].
    in_one_step Hy. reflexivity.
Qed.

Lemma next_answers {T : Type} fuel (it : Iterator T) result l :
  next fuel it = Returns result -> produces it l -> answers result l.
Proof.
  intros Hn Hp. revert fuel Hn.
  induction Hp as [it Hd|it it' l Hs _ IH|it e it' l Hy Hl _];
    intros [|fuel] Hn; simpl in Hn; try discriminate.
  - rewrite Hd in Hn. now injection Hn as <-.
  - rewrite Hs in Hn. eapply IH, Hn.
  - rewrite Hy in Hn. injection Hn as <-. exists l. auto.
Qed.

Lemma next_not_throws {T : Type} fuel (it : Iterator T) e :
  next fuel it <> Throws e.
Proof.
  revert it. induction fuel as [|fuel IH]; intros it; simpl; [discriminate|].
  destruct (resume it); [discriminate|apply IH|discriminate].
Qed.

Lemma next_none_produces {T : Type} fuel (it : Iterator T) :
  next fuel it = Returns None -> produces it [].
Proof.
  revert it. induction fuel as [|fuel IH]; intros it H; simpl in H; [discriminate|].
  destruct (resume it) as [|it'|e it'] eqn:Hr; try discriminate.
  - now apply produces_done.
  - eapply produces_skip; eauto.
Qed.

Lemma reduce_while_eventually {T S : Type} (reducer : S -> T -> number -> S)
  (l : list T) :
  forall result accumulator (k : Z),
    answers result l ->
    eventually (fun fuel => reduce_while fuel reducer accumulator (Int k) result)
               (Returns (fold_from reducer accumulator (k + 1) l)).
Proof.
  induction l as [|x l IH]; intros result accumulator k Ha.
  - destruct result as [[v it]|]; simpl in Ha.
    + destruct Ha as [rest [Hl _]]. discriminate.
    + exists 1%nat. intros [|fuel] Hle; [lia|]. reflexivity.
  - destruct result as [[v it]|]; simpl in Ha; [|discriminate].
    destruct Ha as [rest [Hl Hrest]]. injection Hl as <- <-.
    destruct (next_eventually it l Hrest) as [r [Hr Har]].
    apply eventually_step with
      (body := fun fuel =>
         bind (next fuel it)
              (reduce_while fuel reducer (reducer accumulator x (Int (k + 1)))
                 (Int (k + 1)))).
    + reflexivity.
    + simpl. apply eventually_bind with (a := r); [exact Hr|].
      apply IH, Har.
Qed.

Lemma reduce_for_eventually {T S : Type} (reducer : S -> T -> number -> S)
  (iterable : Iterator T) l :
  produces iterable l ->
  forall accumulator (k : Z),
    eventually (fun fuel => reduce_for fuel reducer accumulator (Int k) iterable)
               (Returns (fold_from reducer accumulator k l)).
Proof.
  induction 1 as [it Hd|it it' l Hs _ IH|it e it' l Hy _ IH]; intros accumulator k.
  - in_one_step Hd. reflexivity.
  - eapply eventually_step; [|apply (IH accumulator k)].
    intros fuel. simpl. now rewrite Hs.
  - eapply eventually_step; [|apply (IH (reducer accumulator e (Int k)) (k + 1))].
    intros fuel. simpl. now rewrite Hy.
Qed.

Lemma reduce_while_not_throws {T S : Type} fuel (reducer : S -> T -> number -> S)
  accumulator index result e :
  reduce_while fuel reducer accumulator index result <> Throws e.
Proof.
  revert accumulator index result.
  induction fuel as [|fuel IH]; intros accumulator index result; simpl;
    [discriminate|].
  destruct result as [[v it]|]; [|discriminate].
  destruct (next fuel it) as [r| |] eqn:Hn; simpl.
  - apply IH.
  - now apply next_not_throws in Hn.
  - discriminate.
Qed.

Lemma reduce_for_not_throws {T S : Type} fuel (reducer : S -> T -> number -> S)
  accumulator index (iterable : Iterator T) e :
  reduce_for fuel reducer accumulator index iterable <> Throws e.
Proof.
  revert accumulator index iterable.
  induction fuel as [|fuel IH]; intros accumulator index iterable; simpl;
    [discriminate|].
  destruct (resume iterable); [discriminate|apply IH|apply IH].
Qed.

(** [reduce] without an initial value, on a sequence that is not empty. *)
Lemma reduce_seeded {T : Type} (reducer : T -> T -> number -> T)
  (iterable : Iterator T) x l :
  produces iterable (x :: l) ->
  eventually (fun fuel => reduce fuel reducer (without_initial iterable))
             (Returns (fold_from reducer x 1 l)).
Proof.
  intros H. simpl.
  destruct (next_eventually iterable _ H) as [[[v it]|] [Hr Ha]]; simpl in Ha;
    [|discriminate].
  destruct Ha as [rest [Hl Hrest]]. injection Hl as <- <-.
  destruct (next_eventually it _ Hrest) as [r [Hr' Ha']].
  eapply eventually_bind; [exact Hr|]. simpl.
  eapply eventually_bind; [exact Hr'|].
  apply (reduce_while_eventually reducer l r x 0), Ha'.
Qed.

(** [reduce] without an initial value, on an empty sequence. *)
Lemma reduce_empty {T : Type} (reducer : T -> T -> number -> T)
  (iterable : Iterator T) :
  produces iterable [] ->
  eventually (fun fuel => reduce fuel reducer (without_initial iterable))
    (Throws (TypeError
       "You are trying to reduce of empty iterable with no initial value.")).
Proof.
  intros H. simpl.
  destruct (next_eventually iterable _ H) as [[[v it]|] [Hr Ha]]; simpl in Ha.
  - destruct Ha as [rest [Hl _]]. discriminate.
  - eapply eventually_bind; [exact Hr|]. simpl. apply eventually_now.
Qed.

End Folding.

Module Indexing.
Import JS Sequences Running CommonUtils.

Local Open Scope Z_scope.

Lemma array_get_cons {T : Type} (e : T) l (p : Z) :
  p <> 0 -> array_get (e :: l) (Int p) = array_get l (Int (p - 1)).
Proof.
  intros Hp. unfold array_get.
  destruct (Z.ltb_spec p 0), (Z.ltb_spec (p - 1) 0); try lia; try reflexivity.
  replace (Z.to_nat p) with (S (Z.to_nat (p - 1))) by lia. reflexivity.
Qed.



Lemma nth_loop_produces {T : Type} (i : Z) (iterable : Iterator T) l :
  produces iterable l ->
  forall k : Z,
    eventually (fun fuel => nth_loop fuel (VNumber (Int i)) (Int k) iterable)
               (Returns (array_get l (Int (i - k)))).
Proof.
  induction 1 as [it Hd|it it' l Hs _ IH|it e it' l Hy _ IH]; intros k.
  - in_one_step Hd.
    destruct (i - k <? 0); [reflexivity|]. now destruct (Z.to_nat (i - k)).
  - eapply eventually_step; [|apply (IH k)].
    intros fuel. simpl. now rewrite Hs.
  - destruct (Z.eq_dec k i) as [->|Hne].
    + in_one_step Hy.
      rewrite Z.eqb_refl, Z.sub_diag. reflexivity.
    + rewrite array_get_cons by lia.
      replace (i - k - 1) with (i - (k + 1)) by lia.
      eapply eventually_step; [|apply (IH (k + 1))].
      intros fuel. simpl. rewrite Hy.
      destruct (Z.eqb_spec k i); [contradiction|reflexivity].
Qed.

Lemma nth_loop_emits {T : Type} (i : Z) (iterable : Iterator T) l rest :
  emits iterable l rest ->
  forall k : Z,
    0 <= i - k < Z.of_nat (length l) ->
    eventually (fun fuel => nth_loop fuel (VNumber (Int i)) (Int k) iterable)
               (Returns (nth_error l (Z.to_nat (i - k)))).
Proof.
  induction 1 as [it|it it' l it'' Hs _ IH|it e it' l it'' Hy _ IH];
    intros k Hk.
  - simpl in Hk. lia.
  - eapply eventually_step; [|apply (IH k Hk)].
    intros fuel. simpl. now rewrite Hs.
  - destruct (Z.eq_dec k i) as [->|Hne].
    + in_one_step Hy.
      rewrite Z.eqb_refl, Z.sub_diag. reflexivity.
    + replace (Z.to_nat (i - k)) with (S (Z.to_nat (i - (k + 1)))) by lia.
      simpl nth_error.
      eapply eventually_step; [|apply (IH (k + 1))].
      * intros fuel. simpl. rewrite Hy.
        destruct (Z.eqb_spec k i); [contradiction|reflexivity].
      * simpl length in Hk. lia.
Qed.

Lemma nth_integer_produces {T : Type} (i : Z) (iterable : Iterator T) l :
  produces iterable l ->
  eventually (fun fuel => nth fuel (VNumber (Int i)) iterable)
             (Returns (array_get l (Int i))).
Proof.
  intros H. pose proof (nth_loop_produces i iterable l H 0) as Hl.
  rewrite Z.sub_0_r in Hl. exact Hl.
Qed.

Lemma nth_integer_emits {T : Type} (i : Z) (iterable : Iterator T) l rest :
  emits iterable l rest ->
  0 <= i < Z.of_nat (length l) ->
  eventually (fun fuel => nth fuel (VNumber (Int i)) iterable)
             (Returns (nth_error l (Z.to_nat i))).
Proof.
  intros H Hi. pose proof (nth_loop_emits i iterable l rest H 0) as Hl.
  rewrite Z.sub_0_r in Hl. apply Hl, Hi.
Qed.

Lemma isNumber_integer (i : Z) : isNumber (VNumber (Int i)) = true.
Proof. reflexivity. Qed.

Lemma isNumber_inv (v : value) :
  isNumber v = true -> exists i : Z, v = VNumber (Int i).
Proof.
  destruct v as [| | |[|i]| | |]; try discriminate. intros _. now exists i.
Qed.


End Indexing.

Module Picking.
Import JS CommonUtils.

(** Only the key ["__proto__"] is ever taken by the setter. *)
Lemma reaches_setter_other (key : string) :
  key <> "__proto__" -> forall p : prototype, reaches_setter p key = false.
Proof.
  intros Hkey. fix IH 1. intros [| |[props p']]; simpl.
  - reflexivity.
  - now apply String.eqb_neq.
  - destruct (props !! key); [reflexivity|apply IH].
Qed.

(** Any other key becomes, or stays, an own property of the target. *)
Lemma set_property_other (target : object) (key : string) (v : data) :
  key <> "__proto__" ->
  set_property target key v = Obj (<[key := v]> (own target)) (proto target).
Proof.
  intros Hkey. unfold set_property.
  rewrite (reaches_setter_other key Hkey). now destruct (own target !! key).
Qed.

Lemma assign_singleton (target : object) (key : string) (v : data) :
  Object_assign target (singleton_object key v) = set_property target key v.
Proof.
  unfold Object_assign, singleton_object; cbn [own].
  now rewrite map_fold_singleton.
Qed.

(** One turn of [pick], away from an own ["__proto__"]. *)
Lemma picking_other (obj acc : object) (k : string) :
  k <> "__proto__" \/ own obj !! "__proto__" = None ->
  picking obj acc k
  = match own obj !! k with
    | Some v => Obj (<[k := v]> (own acc)) (proto acc)
    | None => acc
    end.
Proof.
  intros H. unfold picking.
  destruct (own obj !! k) as [v|] eqn:Hk; [|reflexivity].
  rewrite assign_singleton. apply set_property_other.
  destruct H as [H|H]; [assumption|]. intros ->. congruence.
Qed.

Lemma picking_lookup (obj acc : object) (k key : string) :
  k <> "__proto__" \/ own obj !! "__proto__" = None ->
  own (picking obj acc k) !! key =
  if bool_decide (key = k)
  then match own obj !! k with
       | Some v => Some v
       | None => own acc !! key
       end
  else own acc !! key.
Proof.
  intros H. rewrite (picking_other obj acc k H).
  destruct (own obj !! k) as [v|] eqn:Hk.
  - cbn [own]. case_bool_decide as Heq.
    + subst key. apply lookup_insert_eq.
    + now apply lookup_insert_ne.
  - now case_bool_decide.
Qed.

Lemma picking_proto (obj acc : object) (k : string) :
  k <> "__proto__" \/ own obj !! "__proto__" = None ->
  proto (picking obj acc k) = proto acc.
Proof.
  intros H. rewrite (picking_other obj acc k H).
  now destruct (own obj !! k).
Qed.

Lemma away_from_proto (obj : object) (k : string) (keys : list string) :
  "__proto__" ∉ k :: keys \/ own obj !! "__proto__" = None ->
  (k <> "__proto__" \/ own obj !! "__proto__" = None)
  /\ ("__proto__" ∉ keys \/ own obj !! "__proto__" = None).
Proof.
  intros [H|H]; [|now split; right].
  split; left.
  - intros ->. apply H, list_elem_of_here.
  - intros Hin. now apply H, list_elem_of_further.
Qed.

Lemma fold_picking_lookup (obj : object) (keys : list string) :
  "__proto__" ∉ keys \/ own obj !! "__proto__" = None ->
  forall (acc : object) (key : string),
    own (fold_left (picking obj) keys acc) !! key =
    match (if bool_decide (key ∈ keys) then own obj !! key else None) with
    | Some v => Some v
    | None => own acc !! key
    end.
Proof.
  induction keys as [|k keys IH]; intros H acc key; simpl.
  - reflexivity.
  - apply away_from_proto in H as [Hk Hkeys].
    rewrite (IH Hkeys), (picking_lookup _ _ _ _ Hk).
    destruct (decide (key = k)) as [->|Hne].
    + rewrite (bool_decide_eq_true_2 (k ∈ k :: keys)) by apply list_elem_of_here.
      rewrite (bool_decide_eq_true_2 (k = k)) by reflexivity.
      case_bool_decide; destruct (own obj !! k); reflexivity.
    + rewrite (bool_decide_eq_false_2 (key = k)) by assumption.
      case_bool_decide as Hin.
      * rewrite bool_decide_eq_true_2; [reflexivity|].
        now apply list_elem_of_further.
      * rewrite bool_decide_eq_false_2; [reflexivity|].
        intros [?|?]%elem_of_cons; contradiction.
Qed.

Lemma fold_picking_proto (obj : object) (keys : list string) :
  "__proto__" ∉ keys \/ own obj !! "__proto__" = None ->
  forall acc : object, proto (fold_left (picking obj) keys acc) = proto acc.
Proof.
  induction keys as [|k keys IH]; intros H acc; simpl; [reflexivity|].
  apply away_from_proto in H as [Hk Hkeys].
  now rewrite (IH Hkeys), (picking_proto _ _ _ Hk).
Qed.

End Picking.

Module Endless.
Import JS Sequences Running CommonUtils Generators.

Local Open Scope Z_scope.

Lemma infinity_emits (z : Z) (n : nat) :
  emits (MkIterator (Int z) infinity_step) (count_up z n)
        (MkIterator (Int (z + Z.of_nat n)) infinity_step).
Proof.
  revert z. induction n as [|n IH]; intros z; simpl count_up.
  - rewrite Z.add_0_r. constructor.
  - eapply emits_yield; [reflexivity|].
    replace (z + Z.of_nat (S n)) with (z + 1 + Z.of_nat n) by lia.
    apply IH.
Qed.

Lemma count_up_length (z : Z) (n : nat) : length (count_up z n) = n.
Proof. revert z. induction n as [|n IH]; intros z; simpl; [reflexivity|]. now rewrite IH. Qed.

Lemma count_up_firstn (z : Z) (n : nat) :
  firstn n (count_up z (S n)) = count_up z n.
Proof.
  revert z. induction n as [|n IH]; intros z; [reflexivity|].
  change (count_up z (S (S n))) with (Int z :: count_up (z + 1) (S n)).
  rewrite firstn_cons, IH. reflexivity.
Qed.

(** [take] of [infinity]: the first [n] integers, and then it is over. *)
Lemma take_infinity (n : nat) (z : Z) :
  produces (take (Int (Z.of_nat n)) (infinity (Some (Int z)))) (count_up z n).
Proof.
  rewrite <- count_up_firstn.
  replace n with (Z.to_nat (Z.of_nat n - 0)) at 2 by lia.
  apply (take_from_emits (Z.of_nat n) 0 _ _ _ ltac:(lia) (infinity_emits z (S n))).
  rewrite count_up_length. lia.
Qed.

(** A source that never comes to its end: its slices never do. *)
Lemma slice_endless {T : Type} start end_ (iter : Iterator T) :
  (forall l, ~ produces iter l) ->
  diverges (fun fuel => toArray fuel (slice start end_ iter)).
Proof.
  intros Hinf fuel. unfold toArray.
  destruct (Array_from fuel (slice start end_ iter)) as [out|e|] eqn:Hrun.
  - apply Array_from_produces, slice_from_finite in Hrun.
    destruct Hrun as [l Hl]. now apply Hinf in Hl.
  - now apply Array_from_not_throws in Hrun.
  - reflexivity.
Qed.

(** Past [end], a slice of [infinity] only skips; [take] around it waits
    for an element that never comes. *)
Lemma take_slice_past_end (n k c e : Z) fuel :
  e < k ->
  Array_from fuel
    (take_from (Int n) (Int c)
       (slice_from (Int 0) (Int e) (Int k) (MkIterator (Int k) infinity_step)))
  = OutOfFuel.
Proof.
  revert k. induction fuel as [|fuel IH]; intros k Hk; [reflexivity|].
  simpl Array_from. rewrite resume_take_from, resume_slice_from.
  unfold resume at 1; simpl.
  destruct (Z.leb_spec k e); [lia|]. rewrite andb_false_r.
  apply IH. lia.
Qed.



End Endless.

Module Ranges.
Import JS Sequences.

Local Open Scope Z_scope.

(** The positions between two integers are a run of neighbours. *)
Lemma select_between_run {T : Type} (a b : Z) (l : list T) :
  forall k : Z,
    select_from (between (Int a) (Int b)) k l =
    firstn (Z.to_nat (b + 1 - k) - Z.to_nat (a - k))
           (skipn (Z.to_nat (a - k)) l).
Proof.
  induction l as [|x l IH]; intros k.
  - now rewrite skipn_nil, firstn_nil.
  - simpl select_from. rewrite IH.
    destruct (Z.leb_spec a k) as [Hak|Hak]; simpl.
    + replace (Z.to_nat (a - k)) with 0%nat by lia.
      replace (Z.to_nat (a - (k + 1))) with 0%nat by lia.
      rewrite !Nat.sub_0_r. simpl skipn.
      destruct (Z.leb_spec k b) as [Hkb|Hkb].
      * replace (Z.to_nat (b + 1 - k)) with (S (Z.to_nat (b + 1 - (k + 1)))) by lia.
        reflexivity.
      * replace (Z.to_nat (b + 1 - k)) with 0%nat by lia.
        replace (Z.to_nat (b + 1 - (k + 1))) with 0%nat by lia.
        reflexivity.
    + replace (Z.to_nat (a - k)) with (S (Z.to_nat (a - (k + 1)))) by lia.
      simpl skipn. f_equal. lia.
Qed.

Lemma fold_from_fold_left {T S : Type} (f : S -> T -> S) (l : list T) :
  forall (acc : S) (k : Z),
    fold_from (fun acc item _ => f acc item) acc k l = fold_left f l acc.
Proof.
  induction l as [|x l IH]; intros acc k; simpl; [reflexivity|]. apply IH.
Qed.

End Ranges.

Module Earlier.
Import JS Sequences Running.

Local Open Scope Z_scope.

Lemma limit_is_take {T : Type} (limit : number) (iter : Iterator T) :
  ArrayRevision.limit limit iter = CommonUtils.take limit iter.
Proof. reflexivity. Qed.

Lemma slice_is_slice {T : Type} (start end_ : number) (iter : Iterator T) :
  ArrayRevision.slice start end_ iter = CommonUtils.slice start end_ iter.
Proof. reflexivity. Qed.

Lemma Array_slice_to_end {T : Type} (arr : list T) (e : Z) :
  Array_slice arr (Int 0) (Int e) =
  firstn (Z.to_nat (relative_index (Z.of_nat (length arr)) (Int e))) arr.
Proof.
  unfold Array_slice. cbn zeta.
  assert (H0 : relative_index (Z.of_nat (length arr)) (Int 0) = 0).
  { unfold relative_index; simpl. lia. }
  rewrite H0. simpl skipn. f_equal.
  unfold relative_index; simpl. destruct (e <? 0); lia.
Qed.

(** The array-based [dropRight], on an array of [len] elements. *)
Lemma array_dropRight_eventually {T : Type} (n : Z) (iterable : Iterator T) arr :
  produces iterable arr ->
  eventually (fun fuel => ArrayRevision.dropRight fuel (Some (Int n)) iterable)
    (Returns (firstn (Z.to_nat (relative_index (Z.of_nat (length arr))
                                  (Int (Z.of_nat (length arr) - n)))) arr)).
Proof.
  intros H. unfold ArrayRevision.dropRight.
  eapply eventually_bind; [apply produces_Array_from, H|].
  simpl. rewrite Array_slice_to_end. apply eventually_now.
Qed.

(** Up to the length of the array, it drops the last [n] elements. *)
Lemma array_dropRight_within {T : Type} (n : nat) (iterable : Iterator T) arr :
  (n <= length arr)%nat ->
  produces iterable arr ->
  eventually (fun fuel => ArrayRevision.dropRight fuel (Some (Int (Z.of_nat n))) iterable)
    (Returns (firstn (length arr - n) arr)).
Proof.
  intros Hn H.
  replace (length arr - n)%nat
    with (Z.to_nat (relative_index (Z.of_nat (length arr))
                      (Int (Z.of_nat (length arr) - Z.of_nat n)))).
  - now apply array_dropRight_eventually.
  - unfold relative_index; simpl.
    destruct (Z.ltb_spec (Z.of_nat (length arr) - Z.of_nat n) 0); lia.
Qed.

(** Beyond the length, the end of the slice is counted from the end of
    the array: the result keeps [2 * len - n] elements. *)
Lemma array_dropRight_beyond {T : Type} (n : nat) (iterable : Iterator T) arr :
  (length arr < n)%nat ->
  produces iterable arr ->
  eventually (fun fuel => ArrayRevision.dropRight fuel (Some (Int (Z.of_nat n))) iterable)
    (Returns (firstn (2 * length arr - n) arr)).
Proof.
  intros Hn H.
  replace (2 * length arr - n)%nat
    with (Z.to_nat (relative_index (Z.of_nat (length arr))
                      (Int (Z.of_nat (length arr) - Z.of_nat n)))).
  - now apply array_dropRight_eventually.
  - unfold relative_index; simpl.
    destruct (Z.ltb_spec (Z.of_nat (length arr) - Z.of_nat n) 0); lia.
Qed.

End Earlier.

(* ================================================================= *)
(** ** The examples of the source's comments *)

Module Documented.
Import JS CommonUtils.

Local Open Scope Z_scope.
Local Open Scope string_scope.

Example infinity_example :
  toArray 8 (take (Int 4) (infinity None)) = Returns [Int 0; Int 1; Int 2; Int 3].
Proof. reflexivity. Qed.

Example take_example :
  toArray 16 (take (Int 10) (infinity None))
  = Returns [Int 0; Int 1; Int 2; Int 3; Int 4; Int 5; Int 6; Int 7; Int 8; Int 9].
Proof. reflexivity. Qed.

Example slice_example :
  toArray 8 (slice (Int 2) (Int 3) (of_string "abcde")) = Returns ["c"; "d"].
Proof. reflexivity. Qed.

Example nth_example :
  nth 8 (VNumber (Int 2)) (of_array [1; 2; 3]) = Returns (Some 3).
Proof. reflexivity. Qed.

Example first_example :
  first 8 (of_array [1; 2; 3]) = Returns (Some 1).
Proof. reflexivity. Qed.

Example drop_example :
  toArray 8 (drop (Some (Int 2)) (of_string "abcde")) = Returns ["c"; "d"; "e"].
Proof. reflexivity. Qed.

Example dropRight_example :
  toArray 24 (dropRight (Some (Int 2)) (of_string "abcde")) = Returns ["a"; "b"; "c"].
Proof. reflexivity. Qed.

Example cat_example :
  toArray 16 (cat [of_array [1; 2]; of_array [3; 4]; of_array [5; 6]])
  = Returns [1; 2; 3; 4; 5; 6].
Proof. reflexivity. Qed.

Example construct_example :
  toArray 8 (construct 0 (of_array [1; 2; 3])) = Returns [0; 1; 2; 3].
Proof. reflexivity. Qed.

Example flatMap_example :
  bind (flatMap 16 (fun n => of_array [n; - n]) (of_array [1; 2; 3])) (toArray 16)
  = Returns [1; -1; 2; -2; 3; -3].
Proof. reflexivity. Qed.

Example interpose_example :
  bind (interpose 32 (fun n => - n) (of_array [1; 2; 3])) (toArray 32)
  = Returns [1; -1; 2; -2; 3].
Proof. reflexivity. Qed.

Example pick_example :
  pick ["foo"]
       (Obj (<["foo" := DString "a"]>
               (<["bar" := DNumber (Int 1)]>
                  (<["baz" := DBoolean false]> ∅)))
            Object_prototype)
  = Obj (<["foo" := DString "a"]> ∅) Object_prototype.
Proof. reflexivity. Qed.

Example filter_example :
  toArray 8 (filter (fun n => Z.eqb (n mod 2) 0) (of_array [0; 1; 2; 3; 4; 5]))
  = Returns [0; 2; 4].
Proof. reflexivity. Qed.

Example toArray_example :
  toArray 8 (take (Int 5) (infinity None))
  = Returns [Int 0; Int 1; Int 2; Int 3; Int 4].
Proof. reflexivity. Qed.

Example reverse_example :
  toArray 16 (reverse (of_string "abcde")) = Returns ["e"; "d"; "c"; "b"; "a"].
Proof. reflexivity. Qed.

Example reduce_example :
  reduce 8 (fun acc item _ => acc + item) (without_initial (of_array [1; 2; 3; 4]))
  = Returns 10.
Proof. reflexivity. Qed.

Example array_nth_example :
  ArrayRevision.nth (VNumber (Int 2)) [1; 2; 3] = Returns (Some 3).
Proof. reflexivity. Qed.

Example array_dropRight_example :
  ArrayRevision.dropRight 8 (Some (Int 2)) (of_array [1; 2; 3; 4]) = Returns [1; 2].
Proof. reflexivity. Qed.

End Documented.

(* ================================================================= *)
(** ** The properties of the specification *)

Import JS Sequences Running CommonUtils.

Local Open Scope Z_scope.

(** C1, as stated, fails: with a negative count the test
    [_count === count] never succeeds, and [take(-1, [1, 2, 3])] is the
    whole of [[1, 2, 3]], not the empty sequence. *)
Lemma take_negative_count_keeps_all :
  toArray 8 (take (Int (-1)) (of_array [1; 2; 3])) = Returns [1; 2; 3]
  /\ toArray 8 (take (Int (-1)) (of_array [1; 2; 3])) <> Returns [].
Proof. split; [reflexivity|discriminate]. Qed.

(** C1, amended: for every natural number [n] and every sequence,
    [take(n, seq)] (and [limit(n, seq)]) produces the first [n] elements
    of [seq], all of them when [seq] has fewer, and is over as soon as
    [seq] is exhausted or has handed over its element number [n + 1],
    which is not yielded; [toArray] of it returns these elements.  With
    [n = 0] the result is empty. *)
Theorem take_first_n {T : Type} (n : nat) (iter rest : Iterator T) (l : list T) :
  produces iter l \/ (emits iter l rest /\ length l = S n) ->
  produces (take (Int (Z.of_nat n)) iter) (firstn n l)
  /\ produces (ArrayRevision.limit (Int (Z.of_nat n)) iter) (firstn n l)
  /\ eventually (fun fuel => toArray fuel (take (Int (Z.of_nat n)) iter))
                (Returns (firstn n l))
  /\ (n = 0%nat -> produces (take (Int 0) iter) []).
Proof.
  intros H.
  assert (Hp : produces (take (Int (Z.of_nat n)) iter) (firstn n l)).
  { replace n with (Z.to_nat (Z.of_nat n - 0)) at 2 by lia.
    destruct H as [H|[H Hlen]].
    - apply Generators.take_from_produces; [lia|exact H].
    - eapply Generators.take_from_emits; [lia|exact H|lia]. }
  repeat split.
  - exact Hp.
  - exact Hp.
  - apply produces_Array_from, Hp.
  - intros ->. exact Hp.
Qed.

Lemma take_first_n_witness :
  produces (take (Int 2) (of_array [1; 2; 3])) [1; 2]
  /\ produces (take (Int 2) (infinity None)) [Int 0; Int 1]
  /\ produces (take (Int 0) (infinity None)) [].
Proof.
  split; [|split].
  - apply (take_first_n 2 (of_array [1; 2; 3]) (of_array []) [1; 2; 3]).
    left. apply produces_of_array.
  - apply (take_first_n 2 (infinity None)
             (MkIterator (Int 3) infinity_step) [Int 0; Int 1; Int 2]).
    right. split; [|reflexivity].
    repeat (eapply emits_yield; [reflexivity|]). apply emits_nothing.
  - refine (proj1 (take_first_n 0 (infinity None)
                     (MkIterator (Int 1) infinity_step) [Int 0] _)).
    right. split; [|reflexivity].
    eapply emits_yield; [reflexivity|]. apply emits_nothing.
Defined.

(** C2, as stated, fails: when an initial value is given, the first
    call of the reducer receives 0, not 1.  The reducer below keeps the
    third argument of each of its calls. *)
Lemma reduce_with_initial_counts_from_zero :
  reduce 8 (fun acc (_ : string) index => acc ++ [index])
         (with_initial [] (of_array ["a"; "b"; "c"]%string))
  = Returns [Int 0; Int 1; Int 2]
  /\ reduce 8 (fun acc (_ : string) index => acc ++ [index])
            (with_initial [] (of_array ["a"; "b"; "c"]%string))
     <> Returns [Int 1; Int 2; Int 3].
Proof. split; [reflexivity|discriminate]. Qed.

(** C2, amended: in both call shapes the reducer is called with the
    running accumulator, the current element and the zero-based
    position of that element in the sequence.  With an initial value
    the fold starts on the first element, at position 0; without one
    the first element is the accumulator and the fold starts on the
    second element, at position 1. *)
Theorem reduce_passes_position {T S : Type}
  (reducer : S -> T -> number -> S) (seeded : T -> T -> number -> T)
  (initial : S) (iterable : Iterator T) (l : list T) :
  produces iterable l ->
  eventually (fun fuel => reduce fuel reducer (with_initial initial iterable))
             (Returns (fold_from reducer initial 0 l))
  /\ forall head rest, l = head :: rest ->
       eventually (fun fuel => reduce fuel seeded (without_initial iterable))
                  (Returns (fold_from seeded head 1 rest)).
Proof.
  intros H. split.
  - apply (Folding.reduce_for_eventually reducer iterable l H initial 0).
  - intros head rest ->. now apply Folding.reduce_seeded.
Qed.

Lemma reduce_passes_position_witness :
  eventually
    (fun fuel => reduce fuel (fun acc (_ : list number) index => acc ++ [index])
                   (with_initial [] (of_array [[]; []; []])))
    (Returns [Int 0; Int 1; Int 2])
  /\ eventually
       (fun fuel => reduce fuel (fun acc (_ : list number) index => acc ++ [index])
                      (without_initial (of_array [[]; []; []])))
       (Returns [Int 1; Int 2]).
Proof.
  pose proof (reduce_passes_position
                (fun acc (_ : list number) index => acc ++ [index])
                (fun acc (_ : list number) index => acc ++ [index])
                [] (of_array [[]; []; []]) [[]; []; []]
                (produces_of_array _)) as [H1 H2].
  split; [exact H1|exact (H2 [] [[]; []] eq_refl)].
Defined.




(** C4 fails on the array-based revision: [dropRight(4, [1, 2, 3])]
    evaluates [arr.slice(0, -1)] and returns [[1, 2]], where the claim
    asks for the empty array. *)
Theorem array_dropRight_overshoot :
  ArrayRevision.dropRight 8 (Some (Int 4)) (of_array [1; 2; 3]) = Returns [1; 2].
Proof. reflexivity. Qed.

(** The iterator-based [dropRight] does drop the last [n] elements,
    whatever [n >= 0]: nothing is left when [n] reaches the length. *)
Lemma dropRight_all_but_last {T : Type} (n : nat) (iterable : Iterator T) (l : list T) :
  produces iterable l ->
  produces (dropRight (Some (Int (Z.of_nat n))) iterable) (firstn (length l - n) l)
  /\ eventually (fun fuel => toArray fuel (dropRight (Some (Int (Z.of_nat n))) iterable))
                (Returns (firstn (length l - n) l))
  /\ ((length l <= n)%nat ->
        produces (dropRight (Some (Int (Z.of_nat n))) iterable) []).
Proof.
  intros H.
  assert (Hp : produces (dropRight (Some (Int (Z.of_nat n))) iterable)
                        (firstn (length l - n) l)).
  { rewrite <- (Nat2Z.id n) at 2. now apply Finite.dropRight_produces. }
  repeat split.
  - exact Hp.
  - apply produces_Array_from, Hp.
  - intros Hn. replace (length l - n)%nat with 0%nat in Hp by lia. exact Hp.
Qed.

(** C5: on a finite sequence, [slice(start, end, seq)] produces exactly
    the elements of [seq] whose zero-based position [i] satisfies
    [start <= i <= end], in the order of [seq]; so in both revisions.
    Between two integers, these are the elements from position [start]
    to position [end], both included. *)
Theorem slice_inclusive_range {T : Type} (start end_ : number)
  (iter : Iterator T) (l : list T) :
  produces iter l ->
  produces (slice start end_ iter) (select_from (between start end_) 0 l)
  /\ produces (ArrayRevision.slice start end_ iter)
              (select_from (between start end_) 0 l)
  /\ eventually (fun fuel => toArray fuel (slice start end_ iter))
                (Returns (select_from (between start end_) 0 l))
  /\ (forall a b : Z, start = Int a -> end_ = Int b -> 0 <= a ->
        select_from (between start end_) 0 l
        = firstn (Z.to_nat (b + 1 - a)) (skipn (Z.to_nat a) l)).
Proof.
  intros H.
  assert (Hp : produces (slice start end_ iter) (select_from (between start end_) 0 l))
    by now apply Generators.slice_from_produces.
  repeat split.
  - exact Hp.
  - exact Hp.
  - apply produces_Array_from, Hp.
  - intros a b -> -> Ha. rewrite Ranges.select_between_run.
    rewrite !Z.sub_0_r. f_equal. lia.
Qed.

Lemma slice_inclusive_range_witness :
  produces (slice (Int 2) (Int 3) (of_string "abcde")) ["c"; "d"]%string
  /\ eventually (fun fuel => toArray fuel (slice (Int 2) (Int 3) (of_string "abcde")))
                (Returns ["c"; "d"]%string).
Proof.
  pose proof (slice_inclusive_range (Int 2) (Int 3) (of_string "abcde")
                (characters "abcde") (produces_of_array _))
    as [H1 [_ [H2 _]]].
  split; [exact H1|exact H2].
Defined.

(** C6: on a finite sequence, [interpose(fn, seq)] returns a sequence
    that produces the elements of [seq], in order, with [fn] of the
    preceding element between each two neighbours and nothing before the
    first or after the last; [toArray] of it returns them.  A sequence
    of at most one element comes out unchanged. *)
Theorem interpose_between_neighbours {T : Type} (fn : T -> T)
  (iterable : Iterator T) (l : list T) :
  produces iterable l ->
  (exists result,
     eventually (fun fuel => interpose fuel fn iterable) (Returns result)
     /\ produces result (interposed fn l))
  /\ eventually (fun fuel => bind (interpose fuel fn iterable) (toArray fuel))
                (Returns (interposed fn l))
  /\ ((length l <= 1)%nat -> interposed fn l = l).
Proof.
  intros H.
  destruct (Interposing.interpose_eventually fn iterable l H) as [result [Hr Hp]].
  repeat split.
  - exists result. split; assumption.
  - eapply eventually_bind; [exact Hr|].
    apply produces_Array_from, Hp.
  - destruct l as [|x [|y l]]; simpl; intros Hlen; [reflexivity|reflexivity|lia].
Qed.

Lemma interpose_between_neighbours_witness :
  eventually (fun fuel => bind (interpose fuel (fun n => - n) (of_array [1; 2; 3]))
                               (toArray fuel))
             (Returns [1; -1; 2; -2; 3])
  /\ eventually (fun fuel => bind (interpose fuel (fun n => - n) (of_array [7]))
                                  (toArray fuel))
                (Returns [7])
  /\ eventually (fun fuel => bind (interpose fuel (fun n => - n) (of_array []))
                                  (toArray fuel))
                (Returns []).
Proof.
  split; [|split].
  - exact (proj1 (proj2 (interpose_between_neighbours (fun n => - n)
                           (of_array [1; 2; 3]) [1; 2; 3] (produces_of_array _)))).
  - exact (proj1 (proj2 (interpose_between_neighbours (fun n => - n)
                           (of_array [7]) [7] (produces_of_array _)))).
  - exact (proj1 (proj2 (interpose_between_neighbours (fun n => - n)
                           (of_array []) [] (produces_of_array _)))).
Defined.

(** C7: on a finite sequence that is not empty, [reduce(fn, seq)]
    without an initial value is the left fold of [fn] over the elements
    after the first, seeded with the first. *)
Theorem reduce_seeds_with_first {T : Type} (fn : T -> T -> T)
  (iterable : Iterator T) (head : T) (rest : list T) :
  produces iterable (head :: rest) ->
  eventually
    (fun fuel => reduce fuel (fun acc item _ => fn acc item) (without_initial iterable))
    (Returns (fold_left fn rest head)).
Proof.
  intros H.
  rewrite <- (Ranges.fold_from_fold_left fn rest head 1).
  now apply Folding.reduce_seeded.
Qed.

Lemma reduce_seeds_with_first_witness :
  eventually
    (fun fuel => reduce fuel (fun acc item _ => acc + item)
                   (without_initial (of_array [1; 2; 3; 4])))
    (Returns 10).
Proof.
  exact (reduce_seeds_with_first Z.add (of_array [1; 2; 3; 4]) 1 [2; 3; 4]
           (produces_of_array _)).
Defined.

(** C8: a call of [reduce] throws only when it gives no initial value
    and the sequence is empty, and then it does throw, a TypeError, as
    the outcome of the call itself.  With an initial value the call
    returns on every finite sequence, and returns the initial value
    when the sequence is empty. *)
Theorem reduce_throws_iff_empty_unseeded {T S : Type}
  (reducer : S -> T -> number -> S) (args : reduce_arguments T S) :
  (forall fuel e, reduce fuel reducer args = Throws e ->
     has_initial args = false /\ produces (iterable_of args) [])
  /\ (has_initial args = false -> produces (iterable_of args) [] ->
        eventually (fun fuel => reduce fuel reducer args)
          (Throws (TypeError
             "You are trying to reduce of empty iterable with no initial value.")))
  /\ (forall (initial : S) (iterable : Iterator T) (l : list T),
        produces iterable l ->
        exists result,
          eventually (fun fuel => reduce fuel reducer (with_initial initial iterable))
                     (Returns result)
          /\ (l = [] -> result = initial)).
Proof.
  repeat split.
  - revert reducer H. destruct args as [T iterable|T S initial iterable];
      intros reducer H; [reflexivity|].
    simpl in H. now apply Folding.reduce_for_not_throws in H.
  - revert reducer H. destruct args as [T iterable|T S initial iterable];
      intros reducer H; simpl in *.
    + destruct (next fuel iterable) as [[[v it]|]| |] eqn:Hn; simpl in H.
      * destruct (next fuel it) as [r| |] eqn:Hn'; simpl in H; try discriminate.
        -- now apply Folding.reduce_while_not_throws in H.
        -- now apply Folding.next_not_throws in Hn'.
      * eapply Folding.next_none_produces, Hn.
      * now apply Folding.next_not_throws in Hn.
      * discriminate.
    + now apply Folding.reduce_for_not_throws in H.
  - revert reducer. destruct args as [T iterable|T S initial iterable];
      intros reducer Hno Hempty; [|discriminate].
    now apply Folding.reduce_empty.
  - intros initial iterable l H.
    exists (fold_from reducer initial 0 l). split.
    + apply (Folding.reduce_for_eventually reducer iterable l H initial 0).
    + now intros ->.
Qed.

Lemma reduce_throws_iff_empty_unseeded_witness :
  eventually (fun fuel => reduce fuel (fun acc item _ => acc + item)
                            (without_initial (of_array [])))
    (Throws (TypeError
       "You are trying to reduce of empty iterable with no initial value.")).
Proof.
  exact (proj1 (proj2 (reduce_throws_iff_empty_unseeded
                         (fun acc item _ => acc + item)
                         (without_initial (of_array []))))
           eq_refl (produces_of_array [])).
Defined.

(** C9 fails on the code at the key ["__proto__"].  [pick] copies with
    [Object.assign], which assigns, and on the object under
    construction the assignment to ["__proto__"] is taken by the setter
    of [Object.prototype].  Of [{"__proto__": 1, "a": 2}], an object
    that owns both keys, [pick(["__proto__", "a"], obj)] keeps only
    ["a"]; and when the value under ["__proto__"] is an object, the
    result gets no such property but that object as its prototype, and
    inherits from it what no key asked for. *)
Theorem pick_loses_own_proto_key :
  Object_hasOwn
    (Obj (<["__proto__"%string := DNumber (Int 1)]>
            (<["a"%string := DNumber (Int 2)]> ∅)) Object_prototype)
    "__proto__" = true
  /\ pick ["__proto__"%string; "a"%string]
          (Obj (<["__proto__"%string := DNumber (Int 1)]>
                  (<["a"%string := DNumber (Int 2)]> ∅)) Object_prototype)
     = Obj (<["a"%string := DNumber (Int 2)]> ∅) Object_prototype
  /\ pick ["__proto__"%string]
          (Obj (<["__proto__"%string :=
                    DObject (Obj (<["x"%string := DNumber (Int 1)]> ∅)
                                 Object_prototype)]> ∅)
               Object_prototype)
     = Obj ∅ (Proto (Obj (<["x"%string := DNumber (Int 1)]> ∅) Object_prototype)).
Proof. repeat split. Qed.

(** C10: [slice] is done only when its source is done: it goes on
    pulling after position [end].  So [toArray(slice(start, end, seq))]
    returns only if [seq] is finite, all of [seq] having been run
    through, and never returns on a source without end such as
    [infinity()], in either revision; [take], on the same source,
    returns after [n] elements (the integers from [z] on, as long as
    they stay in the range where [+ 1] is exact). *)
Theorem slice_runs_through_source {T : Type} (start end_ index : number)
  (iter : Iterator T) :
  (resume (slice_from start end_ index iter) = Done <-> resume iter = Done)
  /\ (forall fuel out,
        toArray fuel (slice start end_ iter) = Returns out ->
        exists l, produces iter l /\ out = select_from (between start end_) 0 l)
  /\ ((forall l, ~ produces iter l) ->
        diverges (fun fuel => toArray fuel (slice start end_ iter))
        /\ diverges (fun fuel => toArray fuel (ArrayRevision.slice start end_ iter)))
  /\ (forall first,
        diverges (fun fuel => toArray fuel (slice start end_ (infinity first))))
  /\ (forall (n : nat) (z : Z),
        in_exact_range z -> in_exact_range (Z.of_nat n) ->
        in_exact_range (z + Z.of_nat n) ->
        eventually
          (fun fuel => toArray fuel (take (Int (Z.of_nat n)) (infinity (Some (Int z)))))
          (Returns (count_up z n))).
Proof.
  repeat split.
  - rewrite Generators.resume_slice_from.
    destruct (resume iter) as [|rest|e rest]; [reflexivity|discriminate|].
    destruct (num_le start index && num_le index end_); discriminate.
  - intros Hd. now rewrite Generators.resume_slice_from, Hd.
  - intros fuel out Hrun. apply Array_from_produces in Hrun.
    destruct (Generators.slice_from_finite _ _ _ _ _ Hrun) as [l Hl].
    exists l. split; [exact Hl|].
    eapply produces_unique; [exact Hrun|].
    now apply Generators.slice_from_produces.
  - now apply Endless.slice_endless.
  - now apply (Endless.slice_endless start end_ iter).
  - intros first. apply Endless.slice_endless.
    intros l. apply Generators.infinity_endless.
  - intros n z _ _ _. apply produces_Array_from, Endless.take_infinity.
Qed.

Lemma slice_runs_through_source_witness :
  exists l, produces (of_array [1; 2; 3; 4; 5]) l
            /\ [3; 4] = select_from (between (Int 2) (Int 3)) 0 l.
Proof.
  exact (proj1 (proj2 (slice_runs_through_source (Int 2) (Int 3) (Int 0)
                         (of_array [1; 2; 3; 4; 5])))
           8%nat [3; 4] eq_refl).
Defined.

(** [take] asks its source for one element more than it yields: around
    a source that has no further element to give and does not end
    either, it does not return. *)
Lemma take_waits_for_one_more :
  diverges (fun fuel =>
    toArray fuel (take (Int 1) (slice (Int 0) (Int 0) (infinity None)))).
Proof.
  assert (Hfirst :
    resume (take (Int 1) (slice (Int 0) (Int 0) (infinity None)))
    = Yield (Int 0)
        (take_from (Int 1) (Int 1)
           (slice_from (Int 0) (Int 0) (Int 1)
              (MkIterator (Int 1) infinity_step)))) by reflexivity.
  intros [|fuel]; [reflexivity|].
  unfold toArray. cbn [Array_from]. rewrite Hfirst.
  now rewrite Endless.take_slice_past_end by lia.
Qed.

(** With a count that the counter never reaches (negative, or NaN),
    [take] produces its whole source. *)
Lemma take_unreachable_count {T : Type} (count : number) (iter : Iterator T) l :
  passed count 0 -> produces iter l -> produces (take count iter) l.
Proof. apply Generators.take_from_passed. Qed.

(* ================================================================= *)
(** ** Further lemmas: sources without end, [filter], [cat], [pick] *)

Module Unending.
Import JS Sequences Running CommonUtils Generators.

Local Open Scope Z_scope.

(** An endless iterator steps, and is endless afterwards. *)
Lemma endless_resume {T : Type} (it : Iterator T) :
  endless it ->
  (exists it', resume it = Skip it' /\ endless it')
  \/ (exists e it', resume it = Yield e it' /\ endless it').
Proof.
  intros Hend. destruct (resume it) as [|it'|e it'] eqn:Hr.
  - exfalso. apply (Hend []). now apply produces_done.
  - left. exists it'. split; [reflexivity|].
    intros l Hl. apply (Hend l). eauto with sequences.
  - right. exists e, it'. split; [reflexivity|].
    intros l Hl. apply (Hend (e :: l)). eauto with sequences.
Qed.

Lemma infinity_is_endless (first : option number) : endless (infinity first).
Proof. intros l. apply infinity_endless. Qed.

Lemma Array_from_endless {T : Type} (it : Iterator T) :
  endless it -> forall fuel, Array_from fuel it = OutOfFuel.
Proof.
  intros Hend fuel.
  destruct (Array_from fuel it) as [out|e|] eqn:Hrun.
  - apply Array_from_produces in Hrun. now apply Hend in Hrun.
  - now apply Array_from_not_throws in Hrun.
  - reflexivity.
Qed.

Lemma next_endless {T : Type} (it : Iterator T) :
  endless it ->
  forall fuel,
    next fuel it = OutOfFuel
    \/ exists e it', next fuel it = Returns (Some (e, it')) /\ endless it'.
Proof.
  intros Hend fuel. revert it Hend.
  induction fuel as [|fuel IH]; intros it Hend; [now left|].
  simpl. destruct (endless_resume it Hend) as [[it' [Hr He]]|[e [it' [Hr He]]]];
    rewrite Hr.
  - apply IH, He.
  - right. now exists e, it'.
Qed.

Lemma reverse_from_endless {T : Type} (it : Iterator T) :
  endless it ->
  forall fuel arr, next fuel (reverse_from arr it) = OutOfFuel.
Proof.
  intros Hend fuel. revert it Hend.
  induction fuel as [|fuel IH]; intros it Hend arr; [reflexivity|].
  cbn [next]. rewrite resume_reverse_from.
  destruct (endless_resume it Hend) as [[it' [Hr He]]|[e [it' [Hr He]]]];
    rewrite Hr; now apply IH.
Qed.

Lemma reduce_for_endless {T S : Type} (reducer : S -> T -> number -> S)
  (it : Iterator T) :
  endless it ->
  forall fuel accumulator index,
    reduce_for fuel reducer accumulator index it = OutOfFuel.
Proof.
  intros Hend fuel. revert it Hend.
  induction fuel as [|fuel IH]; intros it Hend accumulator index; [reflexivity|].
  cbn [reduce_for].
  destruct (endless_resume it Hend) as [[it' [Hr He]]|[e [it' [Hr He]]]];
    rewrite Hr; now apply IH.
Qed.

Lemma reduce_while_endless {T S : Type} (reducer : S -> T -> number -> S) :
  forall fuel accumulator index value (it : Iterator T),
    endless it ->
    reduce_while fuel reducer accumulator index (Some (value, it)) = OutOfFuel.
Proof.
  induction fuel as [|fuel IH]; intros accumulator index value it Hend;
    [reflexivity|].
  cbn [reduce_while].
  destruct (next_endless it Hend fuel) as [Hn|[e [it' [Hn He]]]]; rewrite Hn.
  - reflexivity.
  - simpl. now apply IH.
Qed.

End Unending.

Module Filtering.
Import JS Sequences Running CommonUtils Generators.

Local Open Scope Z_scope.

Lemma resume_filter {T : Type} (filterFn : T -> bool) (iter : Iterator T) :
  resume (filter filterFn iter) =
  match resume iter with
  | Done => Done
  | Skip rest => Skip (filter filterFn rest)
  | Yield item rest =>
      if filterFn item then Yield item (filter filterFn rest)
      else Skip (filter filterFn rest)
  end.
Proof.
  unfold resume, filter, filter_step; simpl.
  destruct (step iter (current iter)); try reflexivity.
  destruct (filterFn _); reflexivity.
Qed.

Lemma filter_produces {T : Type} (filterFn : T -> bool) (iter : Iterator T) l :
  produces iter l -> produces (filter filterFn iter) (List.filter filterFn l).
Proof.
  induction 1 as [it Hd|it it' l Hs _ IH|it e it' l Hy _ IH]; simpl.
  - apply produces_done. now rewrite resume_filter, Hd.
  - eapply produces_skip; [|exact IH]. now rewrite resume_filter, Hs.
  - destruct (filterFn e) eqn:Hf.
    + eapply produces_yield; [|exact IH]. now rewrite resume_filter, Hy, Hf.
    + eapply produces_skip; [|exact IH]. now rewrite resume_filter, Hy, Hf.
Qed.

(** [filter] over [infinity], past the last integer that passes the
    test: [nth] waits for an element that never comes. *)
Lemma nth_loop_filter_infinity (filterFn : number -> bool) (index : value) :
  forall fuel (z : Z) (i : number),
    (forall k, z <= k -> filterFn (Int k) = false) ->
    nth_loop fuel index i (filter filterFn (MkIterator (Int z) infinity_step))
    = OutOfFuel.
Proof.
  induction fuel as [|fuel IH]; intros z i Hno; [reflexivity|].
  cbn [nth_loop]. rewrite resume_filter.
  unfold resume at 1; simpl. rewrite (Hno z) by lia.
  apply IH. intros k Hk. apply Hno. lia.
Qed.

Lemma drop_from_NaN {T : Type} (iterable : Iterator T) l :
  produces iterable l -> produces (drop_from NaN iterable) [].
Proof.
  induction 1 as [it Hd|it it' l Hs _ IH|it e it' l Hy _ IH].
  - apply produces_done. now rewrite resume_drop_from, Hd.
  - eapply produces_skip; [|exact IH]. now rewrite resume_drop_from, Hs.
  - eapply produces_skip; [|exact IH]. now rewrite resume_drop_from, Hy.
Qed.

Lemma count_up_nth (z : Z) (n i : nat) :
  (i < n)%nat -> nth_error (count_up z n) i = Some (Int (z + Z.of_nat i)).
Proof.
  revert z i. induction n as [|n IH]; intros z i Hi; [lia|].
  destruct i as [|i]; simpl.
  - now rewrite Z.add_0_r.
  - rewrite IH by lia. do 2 f_equal. lia.
Qed.

End Filtering.

Module Projection.
Import JS CommonUtils Picking.

(** Away from an own ["__proto__"], a picked object is a plain object:
    its own properties over [Object.prototype]. *)
Lemma pick_plain (keys : list string) (obj : object) :
  "__proto__" ∉ keys \/ own obj !! "__proto__" = None ->
  pick keys obj = Obj (own (pick keys obj)) Object_prototype.
Proof.
  intros H.
  assert (Hp : proto (pick keys obj) = Object_prototype).
  { unfold pick, Array_reduce. now rewrite fold_picking_proto. }
  destruct (pick keys obj) as [props p]; simpl in *. now subst.
Qed.

Lemma pick_lookup (keys : list string) (obj : object) (key : string) :
  "__proto__" ∉ keys \/ own obj !! "__proto__" = None ->
  own (pick keys obj) !! key
  = if bool_decide (key ∈ keys) then own obj !! key else None.
Proof.
  intros H. unfold pick, Array_reduce.
  rewrite (fold_picking_lookup _ _ H). simpl.
  rewrite lookup_empty.
  case_bool_decide; [|reflexivity]. now destruct (own obj !! key).
Qed.

(** What is picked from an object without an own ["__proto__"] has
    none either. *)
Lemma pick_without_proto (keys : list string) (obj : object) :
  own obj !! "__proto__" = None ->
  own (pick keys obj) !! "__proto__" = None.
Proof.
  intros H. rewrite pick_lookup by now right.
  now case_bool_decide.
Qed.

Lemma pick_ext (keys keys' : list string) (obj obj' : object) :
  "__proto__" ∉ keys \/ own obj !! "__proto__" = None ->
  "__proto__" ∉ keys' \/ own obj' !! "__proto__" = None ->
  (forall key, own (pick keys obj) !! key = own (pick keys' obj') !! key) ->
  pick keys obj = pick keys' obj'.
Proof.
  intros Hobj Hobj' H.
  rewrite (pick_plain keys obj Hobj), (pick_plain keys' obj' Hobj').
  f_equal. now apply map_eq.
Qed.

End Projection.

Module ArrayFacts.
Import JS Sequences Running.

Local Open Scope Z_scope.

Lemma relative_index_bounds (len : Z) (n : number) :
  0 <= len -> 0 <= relative_index len n <= len.
Proof.
  intros Hlen. unfold relative_index.
  destruct (to_integer n <? 0) eqn:Hneg; lia.
Qed.

Lemma Array_slice_to_length {T : Type} (arr : list T) (n : number) :
  Array_slice arr n (Int (Z.of_nat (length arr)))
  = skipn (Z.to_nat (relative_index (Z.of_nat (length arr)) n)) arr.
Proof.
  unfold Array_slice. cbn zeta.
  pose proof (relative_index_bounds (Z.of_nat (length arr)) n ltac:(lia)) as Hk.
  assert (Hfinal : relative_index (Z.of_nat (length arr))
                     (Int (Z.of_nat (length arr))) = Z.of_nat (length arr)).
  { unfold relative_index; simpl.
    destruct (Z.ltb_spec (Z.of_nat (length arr)) 0); lia. }
  rewrite Hfinal. apply firstn_all2. rewrite length_skipn. lia.
Qed.

Lemma drop_eventually {T : Type} (n : number) (iterable : Iterator T) arr :
  produces iterable arr ->
  eventually (fun fuel => ArrayRevision.drop fuel (Some n) iterable)
    (Returns (skipn (Z.to_nat (relative_index (Z.of_nat (length arr)) n)) arr)).
Proof.
  intros H. unfold ArrayRevision.drop.
  eapply eventually_bind; [apply produces_Array_from, H|].
  simpl. rewrite Array_slice_to_length. apply eventually_now.
Qed.

Lemma first_cons {T : Type} (head : T) (rest : list T) :
  ArrayRevision.first (head :: rest) = Returns (Some head).
Proof.
  unfold ArrayRevision.first, ArrayRevision.nth. simpl negb. cbv iota.
  unfold as_number, num_lt, num_gt, num_sub, num_lt.
  destruct (Z.ltb_spec 0 0); [lia|].
  destruct (Z.ltb_spec (Z.of_nat (length (head :: rest)) - 1) 0);
    [simpl length in *; lia|].
  reflexivity.
Qed.

Lemma cat_none {T : Type} (fuel : nat) :
  ArrayRevision.cat fuel ([] : list (list T))
  = Throws (Error "index is out of bound").
Proof. reflexivity. Qed.

Lemma cat_eventually {T : Type} (head : list T) (rest : list (list T)) :
  eventually (fun fuel => ArrayRevision.cat fuel (head :: rest))
             (Returns (List.concat (head :: rest))).
Proof.
  unfold ArrayRevision.cat. rewrite first_cons. simpl bind.
  apply (eventually_bind
           (fun fuel => ArrayRevision.drop fuel (Some (Int 1)) (of_array (head :: rest)))
           (fun _ rest' => Returns (Array_concat head rest')) rest).
  - pose proof (drop_eventually (Int 1) (of_array (head :: rest)) (head :: rest)
                  (produces_of_array _)) as Hd.
    replace (Z.to_nat (relative_index (Z.of_nat (length (head :: rest))) (Int 1)))
      with 1%nat in Hd; [exact Hd|].
    unfold relative_index; simpl to_integer.
    destruct (Z.ltb_spec 1 0); [lia|]. simpl length. lia.
  - apply eventually_now.
Qed.

Lemma construct_eventually {T : Type} (head : T) (tails : list T) :
  eventually (fun fuel => ArrayRevision.construct fuel head tails)
             (Returns (head :: tails)).
Proof.
  unfold ArrayRevision.construct.
  apply (eventually_bind (fun fuel => Array_from fuel (of_array tails))
           (fun fuel tails' => ArrayRevision.cat fuel [[head]; tails']) tails).
  - apply produces_Array_from, produces_of_array.
  - pose proof (cat_eventually [head] [tails]) as Hc.
    simpl List.concat in Hc. rewrite app_nil_r in Hc. exact Hc.
Qed.

Lemma Array_map_eventually {A B : Type} (F : nat -> A -> outcome B) (g : A -> B)
  (arr : list A) :
  (forall e, eventually (fun fuel => F fuel e) (Returns (g e))) ->
  eventually (fun fuel => Array_map (F fuel) arr) (Returns (List.map g arr)).
Proof.
  intros HF. induction arr as [|e rest IH]; simpl.
  - apply eventually_now.
  - apply (eventually_bind (fun fuel => F fuel e)
             (fun fuel e' => bind (Array_map (F fuel) rest)
                               (fun rest' => Returns (e' :: rest'))) (g e)).
    + apply HF.
    + apply (eventually_bind (fun fuel => Array_map (F fuel) rest)
               (fun _ rest' => Returns (g e :: rest')) (List.map g rest)).
      * exact IH.
      * apply eventually_now.
Qed.

Lemma mapCat_eventually {T : Type} (F : nat -> T -> outcome (list T))
  (g : T -> list T) (iterable : Iterator T) arr :
  produces iterable arr ->
  (forall e, eventually (fun fuel => F fuel e) (Returns (g e))) ->
  eventually (fun fuel => ArrayRevision.mapCat fuel (F fuel) iterable)
    (match arr with
     | [] => Throws (Error "index is out of bound")
     | _ :: _ => Returns (List.concat (List.map g arr))
     end).
Proof.
  intros H HF. unfold ArrayRevision.mapCat.
  apply (eventually_bind (fun fuel => Array_from fuel iterable)
           (fun fuel arr' => bind (Array_map (F fuel) arr')
                               (fun lists => ArrayRevision.cat fuel lists)) arr).
  - apply produces_Array_from, H.
  - apply (eventually_bind (fun fuel => Array_map (F fuel) arr)
             (fun fuel lists => ArrayRevision.cat fuel lists) (List.map g arr)).
    + now apply Array_map_eventually.
    + destruct arr as [|e rest]; simpl List.map.
      * exists 0%nat. intros fuel _. apply cat_none.
      * apply cat_eventually.
Qed.

End ArrayFacts.

Module Laziness.
Import JS Sequences Running CommonUtils Generators.

(** [cat] runs its first sequence as far as that sequence is run. *)
Lemma cat_emits {T : Type} (e e' : Iterator T) (rest : list (Iterator T)) l :
  emits e l e' -> emits (cat (e :: rest)) l (cat (e' :: rest)).
Proof.
  induction 1 as [it|it it1 l it2 Hs _ IH|it x it1 l it2 Hy _ IH].
  - constructor.
  - eapply emits_skip; [|exact IH]. now rewrite resume_cat, Hs.
  - eapply emits_yield; [|exact IH]. now rewrite resume_cat, Hy.
Qed.

End Laziness.

(* ================================================================= *)
(** ** Further properties: predicates and accessors *)

(** X1: the falsy values of [isFalsy] are undefined, null and [false],
    and no others: 0, NaN and the empty string are truthy.  Every value
    is either truthy or falsy, and a value that does not exist is
    falsy. *)
Theorem isFalsy_exactly (v : value) :
  (isFalsy v = true <-> v = VUndefined \/ v = VNull \/ v = VBoolean false)
  /\ isTruthy v = negb (isFalsy v)
  /\ (isExist v = false -> isFalsy v = true)
  /\ isTruthy (VNumber (Int 0)) = true
  /\ isTruthy (VNumber NaN) = true
  /\ isTruthy (VString "") = true.
Proof.
  repeat split.
  - destruct v as [| |[|]|n|s|a|a]; simpl; intros H; try discriminate; auto.
  - intros [->|[->| ->]]; reflexivity.
  - unfold isFalsy, negate. now rewrite negb_involutive.
  - destruct v; simpl; intros H; try discriminate; reflexivity.
Qed.

(** X2: [getValue(value, defaultValue)] is [value] whenever [value]
    exists, be it [false], 0 or the empty string, and [defaultValue]
    otherwise; with a default that exists, the result always exists. *)
Theorem getValue_exists (v defaultValue : value) :
  isExist defaultValue = true ->
  isExist (getValue v defaultValue) = true
  /\ (isExist v = true -> getValue v defaultValue = v)
  /\ (isExist v = false -> getValue v defaultValue = defaultValue).
Proof.
  intros Hd. unfold getValue.
  destruct (isExist v) eqn:Hv; repeat split; auto; discriminate.
Qed.

Lemma getValue_exists_witness :
  isExist (getValue VNull (VString "male")) = true
  /\ getValue (VBoolean false) (VBoolean true) = VBoolean false
  /\ getValue VUndefined (VNumber (Int 7)) = VNumber (Int 7).
Proof.
  split; [|split].
  - exact (proj1 (getValue_exists VNull (VString "male") eq_refl)).
  - exact (proj1 (proj2 (getValue_exists (VBoolean false) (VBoolean true) eq_refl))
             eq_refl).
  - exact (proj2 (proj2 (getValue_exists VUndefined (VNumber (Int 7)) eq_refl))
             eq_refl).
Defined.

(** X3: for a predicate that never holds in both directions (a strict
    order), the comparator of [converter] is antisymmetric: swapping its
    arguments negates its result; it is 0 exactly when the predicate
    holds in neither direction, and so on equal arguments. *)
Theorem converter_antisymmetric {T : Type} (predicate : T -> T -> bool) :
  (forall x y, predicate x y = true -> predicate y x = false) ->
  forall x y,
    converter predicate y x = num_sub (Int 0) (converter predicate x y)
    /\ (converter predicate x y = Int 0
        <-> predicate x y = false /\ predicate y x = false)
    /\ converter predicate x x = Int 0.
Proof.
  intros Hasym x y. unfold converter, isTruthy. simpl.
  pose proof (Hasym x y) as Hxy. pose proof (Hasym y x) as Hyx.
  pose proof (Hasym x x) as Hxx.
  destruct (predicate x y), (predicate y x), (predicate x x);
    repeat split; intros; try discriminate; try reflexivity;
    try (specialize (Hxy eq_refl)); try (specialize (Hyx eq_refl));
    try (specialize (Hxx eq_refl)); try discriminate;
    try (destruct H; discriminate).
Qed.

Lemma converter_antisymmetric_witness :
  converter Z.ltb 5 3 = num_sub (Int 0) (converter Z.ltb 3 5)
  /\ converter Z.ltb 4 4 = Int 0.
Proof.
  assert (Hasym : forall x y : Z, (x <? y) = true -> (y <? x) = false).
  { intros x y H. apply Z.ltb_lt in H. apply Z.ltb_ge. lia. }
  split.
  - exact (proj1 (converter_antisymmetric Z.ltb Hasym 3 5)).
  - exact (proj2 (proj2 (converter_antisymmetric Z.ltb Hasym 4 4))).
Defined.

(** X4: for a predicate that holds in at least one direction for every
    pair (such as [<=], the predicate of the source's example), the
    comparator of [converter] never returns 0: where the predicate
    holds in both directions, and so on equal arguments, it returns -1
    whatever the order of the arguments. *)
Theorem converter_total_never_zero {T : Type} (predicate : T -> T -> bool) :
  (forall x y, predicate x y = true \/ predicate y x = true) ->
  forall x y,
    converter predicate x y <> Int 0
    /\ converter predicate x x = Int (-1)
    /\ (predicate x y = true -> predicate y x = true ->
        converter predicate x y = Int (-1) /\ converter predicate y x = Int (-1)).
Proof.
  intros Htotal x y. unfold converter, isTruthy. simpl.
  pose proof (Htotal x y) as Hxy. pose proof (Htotal x x) as Hxx.
  destruct (predicate x y), (predicate y x), (predicate x x);
    repeat split; intros; try discriminate; try reflexivity;
    destruct Hxy; destruct Hxx; discriminate.
Qed.

Lemma converter_total_never_zero_witness :
  converter Z.leb 4 4 = Int (-1).
Proof.
  assert (Htotal : forall x y : Z, (x <=? y) = true \/ (y <=? x) = true).
  { intros x y. destruct (Z.leb_spec x y); [now left|right].
    apply Z.leb_le. lia. }
  exact (proj1 (proj2 (converter_total_never_zero Z.leb Htotal 4 4))).
Defined.

(** X5: on a string, exactly one of [isEmptyStr] and [isNonEmptyStr]
    holds; on a value that is not a string, neither does. *)
Theorem string_emptiness_partition (str : value) :
  (typeof str = "string"%string -> isNonEmptyStr str = negb (isEmptyStr str))
  /\ (typeof str <> "string"%string ->
      isEmptyStr str = false /\ isNonEmptyStr str = false)
  /\ (isEmptyStr str = true <-> str = VString "").
Proof.
  split; [|split; [|split]].
  - destruct str as [| |b|n|s|a|a]; simpl; intros H; try discriminate.
    destruct s; reflexivity.
  - destruct str; simpl; intros H; try (split; reflexivity). now contradiction H.
  - destruct str as [| |b|n|s|a|a]; simpl; intros H; try discriminate.
    destruct s; [reflexivity|discriminate].
  - intros ->. reflexivity.
Qed.

Lemma string_emptiness_partition_witness :
  isNonEmptyStr (VString "foo") = negb (isEmptyStr (VString "foo"))
  /\ isEmptyStr (VNumber (Int 0)) = false /\ isNonEmptyStr (VNumber (Int 0)) = false.
Proof.
  split.
  - exact (proj1 (string_emptiness_partition (VString "foo")) eq_refl).
  - exact (proj1 (proj2 (string_emptiness_partition (VNumber (Int 0))))
             ltac:(discriminate)).
Defined.

(* ================================================================= *)
(** ** Further properties: the generators *)

(** X6: on a finite sequence, [drop(n, seq)] produces the elements of
    [seq] after the first [n]; a count of 0 or less drops nothing, the
    omitted count drops one element, and a NaN count drops them all. *)
Theorem drop_skips_count {T : Type} (n : Z) (iterable : Iterator T) (l : list T) :
  produces iterable l ->
  produces (drop (Some (Int n)) iterable) (skipn (Z.to_nat n) l)
  /\ (n <= 0 -> produces (drop (Some (Int n)) iterable) l)
  /\ produces (drop None iterable) (skipn 1 l)
  /\ produces (drop (Some NaN) iterable) [].
Proof.
  intros H. split; [|split; [|split]].
  - now apply Finite.drop_from_produces.
  - intros Hn. pose proof (Finite.drop_from_produces n iterable l H) as Hd.
    replace (Z.to_nat n) with 0%nat in Hd by lia. exact Hd.
  - exact (Finite.drop_from_produces 1 iterable l H).
  - now apply (Filtering.drop_from_NaN iterable l).
Qed.

Lemma drop_skips_count_witness :
  produces (drop (Some (Int 2)) (of_string "abcde")) ["c"; "d"; "e"]%string
  /\ produces (drop (Some (Int (-3))) (of_array [1; 2; 3])) [1; 2; 3].
Proof.
  split.
  - exact (proj1 (drop_skips_count 2 (of_string "abcde") (characters "abcde")
                    (produces_of_array _))).
  - exact (proj1 (proj2 (drop_skips_count (-3) (of_array [1; 2; 3]) [1; 2; 3]
                           (produces_of_array _))) ltac:(lia)).
Defined.

(** X7: [take(n, arr)] followed by [drop(n, arr)] is [arr]: the
    concatenation [cat(take(n, arr), drop(n, arr))] of the two halves
    of an array produces the array, for every [n >= 0]. *)
Theorem take_drop_partition {T : Type} (n : nat) (arr : list T) :
  produces (cat [take (Int (Z.of_nat n)) (of_array arr);
                 drop (Some (Int (Z.of_nat n))) (of_array arr)])
           arr.
Proof.
  rewrite <- (firstn_skipn n arr) at 3.
  rewrite <- (app_nil_r (skipn n arr)).
  change (firstn n arr ++ skipn n arr ++ [])
    with (List.concat [firstn n arr; skipn n arr]).
  apply Finite.cat_produces. repeat constructor.
  - pose proof (Generators.take_from_produces (Z.of_nat n) 0 (of_array arr) arr
                  ltac:(lia) (produces_of_array _)) as Ht.
    replace (Z.to_nat (Z.of_nat n - 0)) with n in Ht by lia. exact Ht.
  - pose proof (Finite.drop_from_produces (Z.of_nat n) (of_array arr) arr
                  (produces_of_array _)) as Hd.
    now rewrite Nat2Z.id in Hd.
Qed.

(** X8: on a finite sequence, [reverse(seq)] produces the elements of
    [seq] in the opposite order, and reversing twice gives the sequence
    back. *)
Theorem reverse_round_trip {T : Type} (iterable : Iterator T) (l : list T) :
  produces iterable l ->
  produces (reverse iterable) (rev l)
  /\ produces (reverse (reverse iterable)) l
  /\ eventually (fun fuel => toArray fuel (reverse (reverse iterable))) (Returns l).
Proof.
  intros H.
  assert (H2 : produces (reverse (reverse iterable)) l).
  { rewrite <- (rev_involutive l). now do 2 apply Finite.reverse_produces. }
  split; [now apply Finite.reverse_produces|].
  split; [exact H2|apply produces_Array_from, H2].
Qed.

Lemma reverse_round_trip_witness :
  produces (reverse (of_string "abcde")) ["e"; "d"; "c"; "b"; "a"]%string
  /\ produces (reverse (reverse (of_string "abcde"))) ["a"; "b"; "c"; "d"; "e"]%string.
Proof.
  pose proof (reverse_round_trip (of_string "abcde") (characters "abcde")
                (produces_of_array _)) as [H1 [H2 _]].
  split; [exact H1|exact H2].
Defined.

(** X9: on a source without end, [reverse] never yields anything: the
    first call of [next()] on it does not return. *)
Theorem reverse_never_starts {T : Type} (iterable : Iterator T) :
  endless iterable -> diverges (fun fuel => next fuel (reverse iterable)).
Proof.
  intros Hend fuel. now apply Unending.reverse_from_endless.
Qed.

Lemma reverse_never_starts_witness :
  diverges (fun fuel => next fuel (reverse (infinity None))).
Proof.
  exact (reverse_never_starts (infinity None) (Unending.infinity_is_endless None)).
Defined.

(** X10: [cat] of finite sequences produces their elements, sequence
    after sequence in the order of the arguments, each in its own
    order; [cat()] of no sequence is empty. *)
Theorem cat_concatenates {T : Type} (iterables : list (Iterator T))
  (ls : list (list T)) :
  Forall2 produces iterables ls ->
  produces (cat iterables) (List.concat ls)
  /\ eventually (fun fuel => toArray fuel (cat iterables)) (Returns (List.concat ls)).
Proof.
  intros H.
  assert (Hp : produces (cat iterables) (List.concat ls))
    by now apply Finite.cat_produces.
  split; [exact Hp|apply produces_Array_from, Hp].
Qed.

Lemma cat_concatenates_witness :
  produces (cat [of_array [1; 2]; of_array [3; 4]; of_array [5; 6]])
           [1; 2; 3; 4; 5; 6]
  /\ produces (cat ([] : list (Iterator Z))) [].
Proof.
  split.
  - refine (proj1 (cat_concatenates
                     [of_array [1; 2]; of_array [3; 4]; of_array [5; 6]]
                     [[1; 2]; [3; 4]; [5; 6]] _)).
    repeat constructor; apply produces_of_array.
  - refine (proj1 (cat_concatenates [] [] _)). constructor.
Defined.

(** X11: [cat] is lazy: an index that falls within what the first
    sequence hands over is answered by [nth] from the first sequence
    alone, whatever the sequences after it are, finite or not; so
    [first(construct(head, tails))] returns [head] after one turn of
    its loop, without running [tails]. *)
Theorem nth_of_cat_is_lazy {T : Type} (i : nat) (e e' : Iterator T)
  (rest : list (Iterator T)) (l : list T) (head : T) (tails : Iterator T) :
  emits e l e' ->
  (i < length l)%nat ->
  eventually (fun fuel => nth fuel (VNumber (Int (Z.of_nat i))) (cat (e :: rest)))
             (Returns (nth_error l i))
  /\ forall fuel, first (S fuel) (construct head tails) = Returns (Some head).
Proof.
  intros He Hi. split; [|reflexivity].
  pose proof (Indexing.nth_integer_emits (Z.of_nat i) (cat (e :: rest)) l
                (cat (e' :: rest)) (Laziness.cat_emits e e' rest l He)
                ltac:(lia)) as Hn.
  now rewrite Nat2Z.id in Hn.
Qed.

Lemma nth_of_cat_is_lazy_witness :
  eventually
    (fun fuel => nth fuel (VNumber (Int 1))
                   (cat [of_array [Int 7; Int 8]; infinity None]))
    (Returns (Some (Int 8))).
Proof.
  refine (proj1 (nth_of_cat_is_lazy 1 (of_array [Int 7; Int 8]) (of_array [])
                   [infinity None] [Int 7; Int 8] (Int 0) (infinity None) _ _)).
  - repeat (eapply emits_yield; [reflexivity|]). apply emits_nothing.
  - simpl. lia.
Defined.

(** X12: on a finite sequence, [map(mapper, seq)] produces the images
    of the elements of [seq], as many and in the same order; mapping
    twice is mapping with the composed function. *)
Theorem map_composes {T U V : Type} (f : T -> U) (g : U -> V)
  (iterable : Iterator T) (l : list T) :
  produces iterable l ->
  produces (map f iterable) (List.map f l)
  /\ length (List.map f l) = length l
  /\ produces (map g (map f iterable)) (List.map (fun e => g (f e)) l).
Proof.
  intros H. split; [now apply Finite.map_produces|].
  split; [apply length_map|].
  rewrite <- List.map_map. now do 2 apply Finite.map_produces.
Qed.

Lemma map_composes_witness :
  produces (map (fun n => n * n) (map (fun n => n + 1) (of_array [1; 2; 3])))
           [4; 9; 16].
Proof.
  exact (proj2 (proj2 (map_composes (fun n => n + 1) (fun n => n * n)
                         (of_array [1; 2; 3]) [1; 2; 3] (produces_of_array _)))).
Defined.

(** X13: on a finite sequence whose elements [mapper] sends to finite
    sequences, [flatMap(mapper, seq)] returns a sequence that produces
    the elements of these sequences, one sequence after the other in
    the order of [seq]. *)
Theorem flatMap_flattens {T U : Type} (mapper : T -> Iterator U)
  (f : T -> list U) (iterable : Iterator T) (l : list T) :
  produces iterable l ->
  (forall e, produces (mapper e) (f e)) ->
  exists result,
    eventually (fun fuel => flatMap fuel mapper iterable) (Returns result)
    /\ produces result (flat_map f l).
Proof.
  intros H Hm. exists (cat (List.map mapper l)). split.
  - now apply Interposing.flatMap_eventually.
  - rewrite flat_map_concat_map. apply Finite.cat_produces.
    clear H. induction l as [|e l IH]; simpl; constructor; auto.
Qed.

Lemma flatMap_flattens_witness :
  exists result,
    eventually (fun fuel => flatMap fuel (fun n => of_array [n; - n])
                              (of_array [1; 2; 3]))
               (Returns result)
    /\ produces result [1; -1; 2; -2; 3; -3].
Proof.
  exact (flatMap_flattens (fun n => of_array [n; - n]) (fun n => [n; - n])
           (of_array [1; 2; 3]) [1; 2; 3] (produces_of_array _)
           (fun n => produces_of_array [n; - n])).
Defined.

(** X14: on a finite sequence, [filter(filterFn, seq)] produces the
    elements of [seq] that pass [filterFn], in the order of [seq];
    filtering twice keeps the elements that pass both tests. *)
Theorem filter_keeps_passing {T : Type} (filterFn filterFn' : T -> bool)
  (iter : Iterator T) (l : list T) :
  produces iter l ->
  produces (filter filterFn iter) (List.filter filterFn l)
  /\ produces (filter filterFn' (filter filterFn iter))
              (List.filter (fun e => filterFn e && filterFn' e) l).
Proof.
  intros H. split; [now apply Filtering.filter_produces|].
  assert (Hl : List.filter (fun e => filterFn e && filterFn' e) l
               = List.filter filterFn' (List.filter filterFn l)).
  { clear H. induction l as [|e l IH]; simpl; [reflexivity|].
    destruct (filterFn e); simpl; [|exact IH].
    destruct (filterFn' e); now rewrite IH. }
  rewrite Hl. now do 2 apply Filtering.filter_produces.
Qed.

Lemma filter_keeps_passing_witness :
  produces (filter (fun n => Z.eqb (n mod 2) 0) (of_array [0; 1; 2; 3; 4; 5]))
           [0; 2; 4].
Proof.
  exact (proj1 (filter_keeps_passing (fun n => Z.eqb (n mod 2) 0) (fun _ => true)
                  (of_array [0; 1; 2; 3; 4; 5]) [0; 1; 2; 3; 4; 5]
                  (produces_of_array _))).
Defined.

(** X15: [filter] goes on pulling until an element passes: over
    [infinity(z)], when no integer from [z] on passes [filterFn], asking
    [first] for an element never returns. *)
Theorem filter_waits_forever (filterFn : number -> bool) (z : Z) :
  (forall k, z <= k -> filterFn (Int k) = false) ->
  diverges (fun fuel => first fuel (filter filterFn (infinity (Some (Int z))))).
Proof.
  intros Hno fuel. unfold first, nth. simpl negb. cbv iota.
  now apply Filtering.nth_loop_filter_infinity.
Qed.

Lemma filter_waits_forever_witness :
  diverges (fun fuel =>
    first fuel (filter (fun n => num_lt n (Int 0)) (infinity (Some (Int 0))))).
Proof.
  apply (filter_waits_forever (fun n => num_lt n (Int 0)) 0).
  intros k Hk. simpl. apply Z.ltb_ge. exact Hk.
Defined.

(** X16: [first] of a finite sequence is its first element, and
    undefined when the sequence is empty; the array-based [first]
    returns the first element of an array and throws "index is out of
    bound" on the empty array. *)
Theorem first_or_nothing {T : Type} (iterable : Iterator T) (l : list T) :
  produces iterable l ->
  eventually (fun fuel => first fuel iterable) (Returns (hd_error l))
  /\ ArrayRevision.first l
     = match l with
       | [] => Throws (Error "index is out of bound")
       | head :: _ => Returns (Some head)
       end.
Proof.
  intros H. split.
  - pose proof (Indexing.nth_integer_produces 0 iterable l H) as Hn.
    now destruct l.
  - destruct l as [|head rest]; [reflexivity|apply ArrayFacts.first_cons].
Qed.

Lemma first_or_nothing_witness :
  eventually (fun fuel => first fuel (of_array [1; 2; 3])) (Returns (Some 1))
  /\ eventually (fun fuel => first fuel (of_array ([] : list Z))) (Returns None)
  /\ ArrayRevision.first ([] : list Z) = Throws (Error "index is out of bound").
Proof.
  split; [|split].
  - exact (proj1 (first_or_nothing (of_array [1; 2; 3]) [1; 2; 3]
                    (produces_of_array _))).
  - exact (proj1 (first_or_nothing (of_array []) [] (produces_of_array _))).
  - exact (proj2 (first_or_nothing (of_array ([] : list Z)) []
                    (produces_of_array _))).
Defined.

(** X17: [toArray] of an array returns the array, after one turn of its
    loop for each element and one more; [toArray(infinity(start))]
    never returns. *)
Theorem toArray_of_array {T : Type} (arr : list T) (fuel : nat) :
  (length arr < fuel)%nat ->
  toArray fuel (of_array arr) = Returns arr
  /\ forall start, diverges (fun fuel => toArray fuel (infinity start)).
Proof.
  intros Hfuel. split.
  - unfold toArray. revert fuel Hfuel.
    induction arr as [|e arr IH]; intros [|fuel] Hfuel; simpl in Hfuel; try lia.
    + reflexivity.
    + cbn [Array_from].
      change (resume (of_array (e :: arr))) with (Yield e (of_array arr)).
      cbv iota. rewrite IH by lia. reflexivity.
  - intros start fuel'. apply Unending.Array_from_endless.
    apply Unending.infinity_is_endless.
Qed.

Lemma toArray_of_array_witness :
  toArray 4 (of_array [1; 2; 3]) = Returns [1; 2; 3].
Proof.
  exact (proj1 (toArray_of_array [1; 2; 3] 4 ltac:(simpl; lia))).
Defined.

(** X18: the element of [infinity(z)] at position [i] is [z + i]:
    [nth(i, infinity(z))] returns it, for every natural number [i] and
    integer [z] such that [i], [z] and [z + i] are within the range
    -2^53 .. 2^53, in which [+ 1] is exact. *)
Theorem nth_of_infinity (i : nat) (z : Z) :
  in_exact_range z -> in_exact_range (Z.of_nat i) ->
  in_exact_range (z + Z.of_nat i) ->
  eventually (fun fuel => nth fuel (VNumber (Int (Z.of_nat i))) (infinity (Some (Int z))))
             (Returns (Some (Int (z + Z.of_nat i)))).
Proof.
  intros _ _ _.
  pose proof (Indexing.nth_integer_emits (Z.of_nat i) (infinity (Some (Int z)))
                (count_up z (S i)) _ (Endless.infinity_emits z (S i))) as Hn.
  rewrite Endless.count_up_length, Nat2Z.id in Hn.
  rewrite Filtering.count_up_nth in Hn by lia.
  apply Hn. lia.
Qed.

Lemma nth_of_infinity_witness :
  eventually (fun fuel => nth fuel (VNumber (Int 3)) (infinity (Some (Int 10))))
             (Returns (Some (Int 13))).
Proof.
  apply (nth_of_infinity 3 10); unfold in_exact_range; simpl; lia.
Defined.



(** X20: on a finite sequence and for integers [0 <= start <= end + 1],
    [slice(start, end, seq)] produces what
    [take(end + 1 - start, drop(start, seq))] produces: the elements
    from position [start] to position [end]. *)
Theorem slice_is_take_of_drop {T : Type} (a b : Z) (iter : Iterator T) (l : list T) :
  produces iter l ->
  0 <= a -> a <= b + 1 ->
  produces (slice (Int a) (Int b) iter)
           (firstn (Z.to_nat (b + 1 - a)) (skipn (Z.to_nat a) l))
  /\ produces (take (Int (b + 1 - a)) (drop (Some (Int a)) iter))
              (firstn (Z.to_nat (b + 1 - a)) (skipn (Z.to_nat a) l)).
Proof.
  intros H Ha Hb. split.
  - pose proof (Generators.slice_from_produces (Int a) (Int b) 0 iter l H) as Hs.
    rewrite Ranges.select_between_run in Hs. rewrite !Z.sub_0_r in Hs.
    replace (Z.to_nat (b + 1) - Z.to_nat a)%nat with (Z.to_nat (b + 1 - a)) in Hs
      by lia.
    exact Hs.
  - pose proof (Finite.drop_from_produces a iter l H) as Hd.
    pose proof (Generators.take_from_produces (b + 1 - a) 0 _ _
                  ltac:(lia) Hd) as Ht.
    now rewrite Z.sub_0_r in Ht.
Qed.

Lemma slice_is_take_of_drop_witness :
  produces (slice (Int 2) (Int 3) (of_string "abcde")) ["c"; "d"]%string
  /\ produces (take (Int 2) (drop (Some (Int 2)) (of_string "abcde")))
              ["c"; "d"]%string.
Proof.
  exact (slice_is_take_of_drop 2 3 (of_string "abcde") (characters "abcde")
           (produces_of_array _) ltac:(lia) ltac:(lia)).
Defined.

(** X21: on a finite sequence, [reduce(fn, initial, seq)] with a reducer
    that does not look at the index is the left fold of [fn] over the
    sequence from [initial]; collecting the elements this way gives
    what [toArray] gives. *)
Theorem reduce_with_initial_folds {T S : Type} (fn : S -> T -> S) (initial : S)
  (iterable : Iterator T) (l : list T) :
  produces iterable l ->
  eventually
    (fun fuel => reduce fuel (fun acc item _ => fn acc item)
                   (with_initial initial iterable))
    (Returns (fold_left fn l initial))
  /\ eventually
       (fun fuel => reduce fuel (fun acc item _ => acc ++ [item])
                      (with_initial [] iterable))
       (Returns l)
  /\ eventually (fun fuel => toArray fuel iterable) (Returns l).
Proof.
  intros H.
  assert (Hfold : forall (U : Type) (g : U -> T -> U) (init : U),
    eventually
      (fun fuel => reduce fuel (fun acc item _ => g acc item)
                     (with_initial init iterable))
      (Returns (fold_left g l init))).
  { intros U g init. rewrite <- (Ranges.fold_from_fold_left g l init 0).
    apply (Folding.reduce_for_eventually
             (fun acc item (_ : number) => g acc item) iterable l H init 0). }
  split; [apply Hfold|]. split; [|now apply produces_Array_from].
  pose proof (Hfold (list T) (fun acc item => acc ++ [item]) []) as Hl.
  assert (Happ : forall (xs acc : list T),
            fold_left (fun acc item => acc ++ [item]) xs acc = acc ++ xs).
  { induction xs as [|x xs IH]; intros acc; simpl.
    - now rewrite app_nil_r.
    - rewrite IH, <- app_assoc. reflexivity. }
  now rewrite Happ in Hl.
Qed.

Lemma reduce_with_initial_folds_witness :
  eventually
    (fun fuel => reduce fuel (fun acc item _ => acc + item)
                   (with_initial 100 (of_array [1; 2; 3; 4])))
    (Returns 110).
Proof.
  exact (proj1 (reduce_with_initial_folds Z.add 100 (of_array [1; 2; 3; 4])
                  [1; 2; 3; 4] (produces_of_array _))).
Defined.

(** X22: on a sequence without end, [reduce] never returns and never
    throws, with or without an initial value. *)
Theorem reduce_never_returns_on_endless {T S : Type}
  (reducer : S -> T -> number -> S) (args : reduce_arguments T S) :
  endless (iterable_of args) ->
  diverges (fun fuel => reduce fuel reducer args).
Proof.
  revert reducer. destruct args as [T iterable|T S initial iterable];
    intros reducer Hend fuel; simpl in *.
  - destruct (Unending.next_endless iterable Hend fuel)
      as [Hn|[e [it' [Hn He]]]]; rewrite Hn; [reflexivity|]. simpl.
    destruct (Unending.next_endless it' He fuel)
      as [Hn'|[e' [it'' [Hn' He']]]]; rewrite Hn'; [reflexivity|]. simpl.
    now apply Unending.reduce_while_endless.
  - now apply Unending.reduce_for_endless.
Qed.

Lemma reduce_never_returns_on_endless_witness :
  diverges (fun fuel =>
    reduce fuel (fun acc (item : number) (_ : number) => (acc + 1)%Z)
           (with_initial 0 (infinity None))).
Proof.
  exact (reduce_never_returns_on_endless
           (fun acc (item : number) (_ : number) => (acc + 1)%Z)
           (with_initial 0 (infinity None))
           (Unending.infinity_is_endless None)).
Defined.

(* ================================================================= *)
(** ** Further properties: [pick] *)

(** X23: on an object that owns no property named ["__proto__"],
    picking twice is picking once, and two picks may be made in either
    order: [pick(keys, pick(keys, obj))] has the properties, the values
    and the prototype of [pick(keys, obj)], and
    [pick(keys, pick(keys', obj))] those of [pick(keys', pick(keys, obj))].
    The order in which the results list their properties is not part
    of the statement. *)
Theorem pick_of_pick (keys keys' : list string) (obj : object) :
  own obj !! "__proto__"%string = None ->
  pick keys (pick keys obj) = pick keys obj
  /\ pick keys (pick keys' obj) = pick keys' (pick keys obj).
Proof.
  intros H.
  pose proof (Projection.pick_without_proto keys obj H) as Hk.
  pose proof (Projection.pick_without_proto keys' obj H) as Hk'.
  split; apply Projection.pick_ext; try (now right); intros key;
    rewrite !Projection.pick_lookup by (now right);
    repeat case_bool_decide; reflexivity.
Qed.

Lemma pick_of_pick_witness :
  pick ["a"; "b"]%string
       (pick ["a"; "b"]%string
             (Obj (<["a"%string := DNumber (Int 1)]> (<["c"%string := DNull]> ∅))
                  Object_prototype))
  = pick ["a"; "b"]%string
         (Obj (<["a"%string := DNumber (Int 1)]> (<["c"%string := DNull]> ∅))
              Object_prototype).
Proof.
  refine (proj1 (pick_of_pick ["a"; "b"]%string ["c"]%string _ _)).
  reflexivity.
Defined.

(** X24: on an object that owns no property named ["__proto__"], the
    properties of [pick(keys, obj)], their values and its prototype
    depend on which keys are asked for, not on their order nor on how
    often each is given.  (The order in which the result lists its
    properties does follow the order of the keys; it is not part of
    the statement.) *)
Theorem pick_same_keys (keys keys' : list string) (obj : object) :
  own obj !! "__proto__"%string = None ->
  (forall key, key ∈ keys <-> key ∈ keys') ->
  pick keys obj = pick keys' obj.
Proof.
  intros H Hsame. apply Projection.pick_ext; try (now right). intros key.
  rewrite !Projection.pick_lookup by (now right).
  repeat case_bool_decide; try reflexivity; exfalso; firstorder.
Qed.

Lemma pick_same_keys_witness :
  pick ["a"; "b"; "a"]%string
       (Obj (<["a"%string := DNumber (Int 1)]> (<["c"%string := DNull]> ∅))
            Object_prototype)
  = pick ["b"; "a"]%string
         (Obj (<["a"%string := DNumber (Int 1)]> (<["c"%string := DNull]> ∅))
              Object_prototype).
Proof.
  apply pick_same_keys; [reflexivity|]. intros key.
  rewrite !elem_of_cons, !elem_of_nil. tauto.
Defined.

(** X29: away from the key ["__proto__"], that is when it is not among
    [keys] or [obj] does not own it, [pick(keys, obj)] is a new plain
    object whose own properties are the keys of [keys] that [obj]
    owns, each with its value in [obj]; a key that [obj] does not own,
    be it absent or inherited from a prototype, is left out. *)
Theorem pick_keeps_own_keys (keys : list string) (obj : object) (key : string) :
  "__proto__"%string ∉ keys \/ own obj !! "__proto__"%string = None ->
  own (pick keys obj) !! key
  = (if bool_decide (key ∈ keys) then own obj !! key else None)
  /\ proto (pick keys obj) = Object_prototype.
Proof.
  intros H. split.
  - now apply Projection.pick_lookup.
  - unfold pick, Array_reduce. now rewrite Picking.fold_picking_proto.
Qed.

Lemma pick_keeps_own_keys_witness :
  own (pick ["baz"; "bar"; "toString"; "foo"]%string
            (Obj (<["foo"%string := DString "a"]> ∅)
                 (Proto (Obj (<["bar"%string := DNumber (Int 1)]> ∅)
                             Object_prototype))))
      !! "bar"%string
  = None
  /\ proto (pick ["baz"; "bar"; "toString"; "foo"]%string
                 (Obj (<["foo"%string := DString "a"]> ∅)
                      (Proto (Obj (<["bar"%string := DNumber (Int 1)]> ∅)
                                  Object_prototype))))
     = Object_prototype.
Proof.
  refine (pick_keeps_own_keys ["baz"; "bar"; "toString"; "foo"]%string _ "bar"%string _).
  right. reflexivity.
Defined.

(* ================================================================= *)
(** ** Further properties: the array-based revision *)

(** X25: the array-based [drop(n, seq)] returns the elements after the
    first [n] for [n >= 0]; with a negative count [-(k + 1)] it returns
    the last [k + 1] elements (the whole array when it has fewer), the
    start of [arr.slice] being counted from the end of the array. *)
Theorem array_drop_counts_from_end {T : Type} (k : nat) (iterable : Iterator T)
  (arr : list T) :
  produces iterable arr ->
  eventually (fun fuel => ArrayRevision.drop fuel (Some (Int (Z.of_nat k))) iterable)
             (Returns (skipn k arr))
  /\ eventually (fun fuel => ArrayRevision.drop fuel (Some (Int (- Z.of_nat (S k)))) iterable)
                (Returns (skipn (length arr - S k) arr)).
Proof.
  intros H. split.
  - pose proof (ArrayFacts.drop_eventually (Int (Z.of_nat k)) iterable arr H) as Hd.
    replace (Z.to_nat (relative_index (Z.of_nat (length arr)) (Int (Z.of_nat k))))
      with (Nat.min k (length arr)) in Hd.
    + destruct (Nat.le_gt_cases k (length arr)) as [Hle|Hgt].
      * now rewrite Nat.min_l in Hd by lia.
      * rewrite Nat.min_r in Hd by lia.
        rewrite skipn_all in Hd. now rewrite skipn_all2 by lia.
    + unfold relative_index; simpl to_integer.
      destruct (Z.ltb_spec (Z.of_nat k) 0); lia.
  - pose proof (ArrayFacts.drop_eventually (Int (- Z.of_nat (S k))) iterable arr H)
      as Hd.
    replace (Z.to_nat (relative_index (Z.of_nat (length arr))
                         (Int (- Z.of_nat (S k)))))
      with (length arr - S k)%nat in Hd; [exact Hd|].
    unfold relative_index; simpl to_integer.
    destruct (Z.ltb_spec (- Z.of_nat (S k)) 0); lia.
Qed.

Lemma array_drop_counts_from_end_witness :
  eventually (fun fuel => ArrayRevision.drop fuel (Some (Int 2)) (of_array [1; 2; 3; 4]))
             (Returns [3; 4])
  /\ eventually (fun fuel => ArrayRevision.drop fuel (Some (Int (-1))) (of_array [1; 2; 3]))
                (Returns [3]).
Proof.
  split.
  - exact (proj1 (array_drop_counts_from_end 2 (of_array [1; 2; 3; 4]) [1; 2; 3; 4]
                    (produces_of_array _))).
  - exact (proj2 (array_drop_counts_from_end 0 (of_array [1; 2; 3]) [1; 2; 3]
                    (produces_of_array _))).
Defined.

(** X26: the array-based [cat] returns the concatenation of its
    arguments when it is given at least one array, and throws "index is
    out of bound" when it is given none; [construct(head, tails)]
    returns [tails] with [head] in front. *)
Theorem array_cat_needs_an_array {T : Type} (head : list T) (rest : list (list T))
  (e : T) (tails : list T) :
  (forall fuel, ArrayRevision.cat fuel ([] : list (list T))
                = Throws (Error "index is out of bound"))
  /\ eventually (fun fuel => ArrayRevision.cat fuel (head :: rest))
                (Returns (head ++ List.concat rest))
  /\ eventually (fun fuel => ArrayRevision.construct fuel e tails)
                (Returns (e :: tails)).
Proof.
  split; [intros fuel; apply ArrayFacts.cat_none|].
  split; [apply ArrayFacts.cat_eventually|apply ArrayFacts.construct_eventually].
Qed.

(** X27: the array-based [mapCat(f, seq)] returns the concatenation of
    the arrays [f] returns on the elements of a finite sequence that is
    not empty, and throws "index is out of bound" on an empty one. *)
Theorem array_mapCat_flattens {T : Type} (f : T -> list T)
  (iterable : Iterator T) (arr : list T) :
  produces iterable arr ->
  eventually (fun fuel => ArrayRevision.mapCat fuel (fun e => Returns (f e)) iterable)
    (match arr with
     | [] => Throws (Error "index is out of bound")
     | _ :: _ => Returns (flat_map f arr)
     end).
Proof.
  intros H. rewrite flat_map_concat_map.
  apply (ArrayFacts.mapCat_eventually (fun _ e => Returns (f e)) f iterable arr H).
  intros e. apply eventually_now.
Qed.

Lemma array_mapCat_flattens_witness :
  eventually
    (fun fuel => ArrayRevision.mapCat fuel (fun n => Returns [n; n * 3])
                   (of_array [0; 1; 2]))
    (Returns [0; 0; 1; 3; 2; 6])
  /\ eventually
       (fun fuel => ArrayRevision.mapCat fuel (fun n : Z => Returns [n; n * 3])
                      (of_array []))
       (Throws (Error "index is out of bound")).
Proof.
  split.
  - exact (array_mapCat_flattens (fun n => [n; n * 3]) (of_array [0; 1; 2])
             [0; 1; 2] (produces_of_array _)).
  - exact (array_mapCat_flattens (fun n => [n; n * 3]) (of_array []) []
             (produces_of_array _)).
Defined.

(** X28: on a finite sequence that is not empty, the array-based
    [interpose] returns the elements with [inserter] of the preceding
    element between each two neighbours, as the iterator-based one
    does; on an empty sequence it throws "index is out of bound", where
    the iterator-based one returns an empty sequence. *)
Theorem array_interpose_throws_on_empty {T : Type} (inserter : T -> T)
  (collection : Iterator T) (l : list T) :
  produces collection l ->
  eventually (fun fuel => ArrayRevision.interpose fuel inserter collection)
    (match l with
     | [] => Throws (Error "index is out of bound")
     | _ :: _ => Returns (interposed inserter l)
     end).
Proof.
  intros H.
  pose proof (ArrayFacts.mapCat_eventually
                (fun fuel e => ArrayRevision.construct fuel e [inserter e])
                (fun e => [e; inserter e]) collection l H
                (fun e => ArrayFacts.construct_eventually e [inserter e])) as Hm.
  unfold ArrayRevision.interpose.
  destruct l as [|x rest].
  - destruct Hm as [n Hn]. exists n. intros fuel Hle. now rewrite Hn.
  - set (pairs := List.concat (List.map (fun e => [e; inserter e]) (x :: rest))) in *.
    apply (eventually_bind
             (fun fuel => ArrayRevision.mapCat fuel
                            (fun e => ArrayRevision.construct fuel e [inserter e])
                            collection)
             (fun fuel pairs' => ArrayRevision.dropRight fuel (Some (Int 1))
                                   (of_array pairs')) pairs _ Hm).
    rewrite <- (Interposing.all_but_last_pairs inserter (x :: rest)).
    apply (Earlier.array_dropRight_within 1 (of_array pairs) pairs);
      [subst pairs; simpl; lia|apply produces_of_array].
Qed.

Lemma array_interpose_throws_on_empty_witness :
  eventually (fun fuel => ArrayRevision.interpose fuel (fun n => - n) (of_array [1; 2; 3]))
             (Returns [1; -1; 2; -2; 3])
  /\ eventually (fun fuel => ArrayRevision.interpose fuel (fun n : Z => - n) (of_array []))
                (Throws (Error "index is out of bound")).
Proof.
  split.
  - exact (array_interpose_throws_on_empty (fun n => - n) (of_array [1; 2; 3])
             [1; 2; 3] (produces_of_array _)).
  - exact (array_interpose_throws_on_empty (fun n => - n) (of_array []) []
             (produces_of_array _)).
Defined.
